(** * Smart Emotion Mirror: the analysis client, the speech hook and the
      capture loop, embedded in Rocq

    Sources embedded here:
    - [src/types.ts]                  the [Emotion] enum and [AnalysisResult];
    - [src/services/geminiService.ts] [emotionValues], [analysisSchema],
                                      [analyzeImage];
    - [src/hooks/useSpeechSynthesis.ts] the hook state and [speak];
    - [src/App.tsx]                   the theme tables, [startWebcam],
                                      [stopWebcam], [captureAndAnalyze], the
                                      interval effect, the two buttons.

    JavaScript strings are modelled as byte strings (UTF-8), objects as
    finite maps from property names to values, exceptions as a result type,
    and the console and the browser calls as logs of what was called.

    The component is followed through its own code: the state it keeps,
    the effect on [isAnalyzing], the two buttons, the capture tick and what
    follows the awaited call, with whatever value the call returned. Of
    the render, lines 93 to 96 (the theme) are embedded; what React makes
    of the markup is not. *)

From Stdlib Require Import ZArith Ascii String List Bool Lia DecimalString.
From stdpp Require Import base tactics option list gmap strings.

Set Warnings "-register-all".
Local Open Scope string_scope.
Local Open Scope Z_scope.

(** ** JavaScript values, errors and the built-ins the sources call *)

Module Js.

(** A value as [JSON.parse] builds it, plus [undefined], which reading a
    missing property gives. A number is kept as the decimal
    [mantissa * 10^exponent] of its literal; the double JavaScript rounds
    it to is [double_of_decimal] below. An array carries, beside its
    elements, the named properties assigned to it. *)
Inductive Value : Type :=
  | JUndefined
  | JNull
  | JBool (b : bool)
  | JNum (mantissa exponent : Z)
  | JStr (s : string)
  | JArr (elems : list Value) (own : gmap string Value)
  | JObj (own : gmap string Value).

(** What a [throw] carries: [new Error(message)] of the sources, the errors
    the engine raises itself, and the rejection of a remote call. *)
Inductive Error : Type :=
  | MkError (message : string)
  | TypeError (message : string)
  | SyntaxError (message : string)
  | NetworkError (message : string).

Definition message (e : Error) : string :=
  match e with
  | MkError m | TypeError m | SyntaxError m | NetworkError m => m
  end.

(** The outcome of an expression that may throw. *)
Inductive Throws (A : Type) : Type :=
  | Ok (a : A)
  | Throw (e : Error).
Arguments Ok {A} a.
Arguments Throw {A} e.

(** The properties the sources read or write on a parsed response. None of
    them is a property of [Object.prototype], [Array.prototype] or of the
    wrappers of primitives, an array index or [length]. *)
Module Key.
Inductive Field : Type :=
  | emotion
  | environmentAnalysis
  | encouragingMessage
  | productivityTip.
End Key.

Abbreviation Field := Key.Field.

Definition key (f : Field) : string :=
  match f with
  | Key.emotion => "emotion"
  | Key.environmentAnalysis => "environmentAnalysis"
  | Key.encouragingMessage => "encouragingMessage"
  | Key.productivityTip => "productivityTip"
  end.

(** Whether the value has the property as its own. *)
Definition hasOwn (v : Value) (f : Field) : bool :=
  match v with
  | JArr _ own | JObj own => bool_decide (is_Some (own !! key f))
  | _ => false
  end.

(** [v.f]: a [TypeError] on [undefined] and [null], [undefined] where the
    property is missing. *)
Definition get (v : Value) (f : Field) : Throws Value :=
  match v with
  | JUndefined | JNull =>
      Throw (TypeError "Cannot read properties of undefined or null")
  | JBool _ | JNum _ _ | JStr _ => Ok JUndefined
  | JArr _ own | JObj own => Ok (default JUndefined (own !! key f))
  end.

(** [v.f = x] in strict mode (module code is strict): the property is
    created or overwritten on an object or an array; on a primitive the
    assignment throws a [TypeError]. *)
Definition set (v : Value) (f : Field) (x : Value) : Throws Value :=
  match v with
  | JArr elems own => Ok (JArr elems (<[key f := x]> own))
  | JObj own => Ok (JObj (<[key f := x]> own))
  | JUndefined | JNull =>
      Throw (TypeError "Cannot set properties of undefined or null")
  | JBool _ | JNum _ _ | JStr _ =>
      Throw (TypeError "Cannot create property on a primitive")
  end.

(** Whether converting the value to a string, as a template literal does,
    throws. A parsed value holds no function, so an own [toString]
    property shadows the inherited method with something that cannot be
    called, and the conversion ends in a [TypeError]; an array without it
    joins the conversions of its elements ([null] counts as empty), unless
    an own [join] shadows the inherited one, in which case
    [Object.prototype.toString] is used. *)
Fixpoint toString_throws (v : Value) : bool :=
  match v with
  | JObj own => bool_decide (is_Some (own !! "toString"))
  | JArr elems own =>
      if bool_decide (is_Some (own !! "toString")) then true
      else if bool_decide (is_Some (own !! "join")) then false
      else existsb toString_throws elems
  | _ => false
  end.

(** [strings.includes(v)] on an array of strings: SameValueZero, so only a
    string equal to one of them is found. *)
Definition includes (strings : list string) (v : Value) : bool :=
  match v with
  | JStr s => existsb (String.eqb s) strings
  | _ => false
  end.

(** *** Numbers

    A double by its value: zero (of either sign: no operation below tells
    them apart), an infinity, or [q * 2^E] with [2^52 <= q < 2^53] and
    [-1074 <= E <= 971], or [0 < q < 2^52] and [E = -1074]. A response
    holds no NaN. *)
Inductive Double : Type :=
  | DZero
  | DInfinity (negative : bool)
  | DFinite (negative : bool) (q E : Z).

(** The number of decimal digits of a positive integer. *)
Definition decimal_digits (n : Z) : Z :=
  Z.of_nat (Decimal.nb_digits (N.to_uint (Z.to_N n))).

(** [num / den] divided by [2^E], and by [10^p], as fractions. *)
Definition pow2_scale (num den E : Z) : Z * Z :=
  if 0 <=? E then (num, den * 2 ^ E) else (num * 2 ^ (- E), den).

Definition pow10_scale (num den p : Z) : Z * Z :=
  if 0 <=? p then (num, den * 10 ^ p) else (num * 10 ^ (- p), den).

(** The double nearest to the positive fraction [num / den], ties to the
    even significand; beyond the largest double it is an infinity. *)
Definition round_to_double (negative : bool) (num den : Z) : Double :=
  let lg := Z.log2 num - Z.log2 den in
  let E0 := lg - 52 in
  let '(n0, d0) := pow2_scale num den E0 in
  let E1 := if n0 / d0 <? 2 ^ 52 then E0 - 1 else E0 in
  let E := Z.max E1 (-1074) in
  let '(n1, d1) := pow2_scale num den E in
  let q := n1 / d1 in
  let r := n1 mod d1 in
  let q := if (d1 <? 2 * r) || ((2 * r =? d1) && Z.odd q) then q + 1 else q in
  let '(q, E) := if q =? 2 ^ 53 then (2 ^ 52, E + 1) else (q, E) in
  if q =? 0 then DZero
  else if 971 <? E then DInfinity negative
  else DFinite negative q E.

(** The Number a literal [m * 10^e] denotes. A literal of [d] digits is at
    least [10^(d-1+e)] and below [10^(d+e)], which settles the far ends
    without the power. *)
Definition double_of_decimal (m e : Z) : Double :=
  if m =? 0 then DZero
  else
    let n := Z.abs m in
    let d := decimal_digits n in
    if 309 <=? d - 1 + e then DInfinity (m <? 0)
    else if d + e <=? -324 then DZero
    else if 0 <=? e then round_to_double (m <? 0) (n * 10 ^ e) 1
    else round_to_double (m <? 0) n (10 ^ (- e)).

Definition Double_eqb (x y : Double) : bool :=
  match x, y with
  | DZero, DZero => true
  | DInfinity a, DInfinity b => Bool.eqb a b
  | DFinite a q E, DFinite b q' E' => Bool.eqb a b && (q =? q') && (E =? E')
  | _, _ => false
  end.

Definition decimal_string (s : Z) : string :=
  NilEmpty.string_of_uint (N.to_uint (Z.to_N s)).

(** The digits [Number::toString] prints for the positive double [x], of
    value [A / B] with [10^(n-1) <= A / B < 10^n]: the least number [k] of
    digits, from [k] on, for which some [s] of [k] digits has [s * 10^(n-k)]
    converting to [x], and for it the [s] nearest to the value (the even
    one of two equally near). The result is [(s, k, n)]; rounding up to
    [10^k] moves [n] by one. Seventeen digits always suffice. *)
Fixpoint shortest_digits (fuel : nat) (k : Z) (x : Double) (A B n : Z)
  : Z * Z * Z :=
  match fuel with
  | O => (0, 1, n)
  | S fuel' =>
      let '(n1, d1) := pow10_scale A B (n - k) in
      let lo := n1 / d1 in
      let r := n1 mod d1 in
      let ok_lo := Double_eqb (double_of_decimal lo (n - k)) x
                   && (10 ^ (k - 1) <=? lo) in
      let ok_hi := Double_eqb (double_of_decimal (lo + 1) (n - k)) x in
      let pick_lo := (lo, k, n) in
      let pick_hi := if lo + 1 =? 10 ^ k then (10 ^ (k - 1), k, n + 1)
                     else (lo + 1, k, n) in
      if ok_lo && ok_hi then
        (if (2 * r <? d1) || ((2 * r =? d1) && Z.even lo) then pick_lo else pick_hi)
      else if ok_lo then pick_lo
      else if ok_hi then pick_hi
      else shortest_digits fuel' (k + 1) x A B n
  end.

Fixpoint zero_digits (n : nat) : string :=
  match n with
  | O => EmptyString
  | S n' => String "0" (zero_digits n')
  end.

(** [Number::toString] in base ten: the digits in place up to 21 integer
    digits and down to six zeros after the point, and with an exponent
    beyond. *)
Definition Number_toString (x : Double) : string :=
  match x with
  | DZero => "0"
  | DInfinity negative => (if negative then "-" else "") ++ "Infinity"
  | DFinite negative q E =>
      let '(A, B) := pow2_scale q 1 (- E) in
      let dA := decimal_digits A in
      let dB := decimal_digits B in
      let '(n1, d1) := pow10_scale A B (dA - dB) in
      let n := if d1 <=? n1 then dA - dB + 1 else dA - dB in
      let '(s, k, n) := shortest_digits 17 1 (DFinite false q E) A B n in
      let ds := decimal_string s in
      let body :=
        if (k <=? n) && (n <=? 21) then ds ++ zero_digits (Z.to_nat (n - k))
        else if (0 <? n) && (n <=? 21) then
          substring 0 (Z.to_nat n) ds ++ "." ++ substring (Z.to_nat n) (Z.to_nat (k - n)) ds
        else if (-6 <? n) && (n <=? 0) then "0." ++ zero_digits (Z.to_nat (- n)) ++ ds
        else
          let e := n - 1 in
          let es := (if e <? 0 then "-" else "+") ++ decimal_string (Z.abs e) in
          if k =? 1 then ds ++ "e" ++ es
          else substring 0 1 ds ++ "." ++ substring 1 (Z.to_nat (k - 1)) ds ++ "e" ++ es in
      (if negative then "-" else "") ++ body
  end.

(** *** Conversions and comparison *)

(** [!!v]: what [!v] and [if (v)] look at. *)
Definition truthy (v : Value) : bool :=
  match v with
  | JUndefined | JNull => false
  | JBool b => b
  | JNum m e => negb (Double_eqb (double_of_decimal m e) DZero)
  | JStr s => negb (String.eqb s EmptyString)
  | JArr _ _ | JObj _ => true
  end.

(** [a === b]. An object or an array is equal to itself only; the two
    sides compared below never are the same object: one comes out of the
    [JSON.parse] of the call that just returned, the other was there
    before. *)
Definition strict_equal (a b : Value) : bool :=
  match a, b with
  | JUndefined, JUndefined => true
  | JNull, JNull => true
  | JBool x, JBool y => Bool.eqb x y
  | JNum m e, JNum m' e' =>
      Double_eqb (double_of_decimal m e) (double_of_decimal m' e')
  | JStr s, JStr t => String.eqb s t
  | _, _ => false
  end.

(** [String(v)], the conversion a DOM constructor applies to a text
    argument. It throws where [toString_throws] says so; an element of an
    array that is [undefined] or [null] counts as empty in the join. *)
Fixpoint toString (v : Value) : Throws string :=
  match v with
  | JUndefined => Ok "undefined"
  | JNull => Ok "null"
  | JBool true => Ok "true"
  | JBool false => Ok "false"
  | JNum m e => Ok (Number_toString (double_of_decimal m e))
  | JStr s => Ok s
  | JObj own =>
      if bool_decide (is_Some (own !! "toString"))
      then Throw (TypeError "Cannot convert object to primitive value")
      else Ok "[object Object]"
  | JArr elems own =>
      if bool_decide (is_Some (own !! "toString"))
      then Throw (TypeError "Cannot convert object to primitive value")
      else if bool_decide (is_Some (own !! "join")) then Ok "[object Array]"
      else
        (fix join (l : list Value) : Throws string :=
           match l with
           | [] => Ok EmptyString
           | x :: rest =>
               match match x with
                     | JUndefined | JNull => Ok EmptyString
                     | _ => toString x
                     end with
               | Throw e => Throw e
               | Ok s =>
                   match rest with
                   | [] => Ok s
                   | _ :: _ =>
                       match join rest with
                       | Throw e => Throw e
                       | Ok r => Ok (s ++ "," ++ r)
                       end
                   end
               end
           end) elems
  end.

(** The built-ins of the engine that the sources call on text. The
    development is parametric in them; [Reference] below gives an
    executable instance. *)
Class Builtins : Type := {
  String_trim : string -> string;
  JSON_parse : string -> Throws Value
}.

(** One line written to the console: a warning built from a template
    literal around a value, or an error message with the error caught. *)
Inductive ConsoleEntry : Type :=
  | console_warn (before : string) (v : Value) (after : string)
  | console_error (what : string) (e : Error).

(** A computation that writes to the console and may throw. *)
Definition Eff (A : Type) : Type := list ConsoleEntry * Throws A.

Definition ret {A} (a : A) : Eff A := ([], Ok a).
Definition throw {A} (e : Error) : Eff A := ([], Throw e).
Definition lift {A} (r : Throws A) : Eff A := ([], r).
Definition log (c : ConsoleEntry) : Eff unit := ([c], Ok tt).

Definition bind {A B} (m : Eff A) (k : A -> Eff B) : Eff B :=
  match m with
  | (out, Ok a) => let '(out', r) := k a in ((out ++ out')%list, r)
  | (out, Throw e) => (out, Throw e)
  end.

(** [try { body } catch (error) { handler }]. *)
Definition try_catch {A} (body : Eff A) (handler : Error -> Eff A) : Eff A :=
  match body with
  | (out, Ok a) => (out, Ok a)
  | (out, Throw e) => let '(out', r) := handler e in ((out ++ out')%list, r)
  end.

Definition console {A} (m : Eff A) : list ConsoleEntry := fst m.
Definition outcome {A} (m : Eff A) : Throws A := snd m.

End Js.

Import Js.

Notation "x <~ m ;; k" := (Js.bind m (fun x => k))
  (at level 100, m at next level, right associativity).
Notation "m ;;; k" := (Js.bind m (fun _ => k))
  (at level 100, right associativity).

(** ** [src/types.ts] *)

Inductive Emotion : Type :=
  | HAPPY | SAD | STRESSED | FOCUSED | TIRED | NEUTRAL | SURPRISED | ANGRY.

(** The string each member of the enum is. *)
Definition Emotion_value (e : Emotion) : string :=
  match e with
  | HAPPY => "HAPPY"
  | SAD => "SAD"
  | STRESSED => "STRESSED"
  | FOCUSED => "FOCUSED"
  | TIRED => "TIRED"
  | NEUTRAL => "NEUTRAL"
  | SURPRISED => "SURPRISED"
  | ANGRY => "ANGRY"
  end.

(** The members in declaration order. *)
Definition Emotion_members : list Emotion :=
  [HAPPY; SAD; STRESSED; FOCUSED; TIRED; NEUTRAL; SURPRISED; ANGRY].

(** A result as the component holds it. The interface declares the three
    texts as strings; nothing checks a value against it at run time, so a
    field holds whatever the response had there, [JUndefined] where it had
    nothing. The emotion is a member of the enum in every value
    [analyzeImage] returns ([analyzeImage_result_is_held] below). *)
Record AnalysisResult : Type := {
  emotion : Emotion;
  environmentAnalysis : Value;
  encouragingMessage : Value;
  productivityTip : Value
}.

(** ** [src/services/geminiService.ts] *)

(** [Object.values(Emotion)]. *)
Definition emotionValues : list string := map Emotion_value Emotion_members.

Inductive SchemaType : Type := Type_OBJECT | Type_STRING.

Record PropertySchema : Type := {
  ps_type : SchemaType;
  ps_enum : option (list string);
  ps_description : string
}.

Record Schema : Type := {
  s_type : SchemaType;
  s_properties : list (Field * PropertySchema);
  s_required : list Field
}.

Definition analysisSchema : Schema := {|
  s_type := Type_OBJECT;
  s_properties := [
    (Key.emotion, {|
       ps_type := Type_STRING;
       ps_enum := Some emotionValues;
       ps_description :=
         "The primary emotion detected from the person's facial expression." |});
    (Key.environmentAnalysis, {|
       ps_type := Type_STRING;
       ps_enum := None;
       ps_description :=
         "A brief analysis of the user's environment (e.g., lighting, background clutter)." |});
    (Key.encouragingMessage, {|
       ps_type := Type_STRING;
       ps_enum := None;
       ps_description :=
         "A short, positive, and encouraging message tailored to the detected emotion." |});
    (Key.productivityTip, {|
       ps_type := Type_STRING;
       ps_enum := None;
       ps_description :=
         "A concise and actionable productivity tip relevant to the user's current emotional state." |})
  ];
  s_required := [Key.emotion; Key.environmentAnalysis; Key.encouragingMessage; Key.productivityTip]
|}.

(** The two parts of the request's content: the instruction and the image.
    [data] is [None] where the caller passed [undefined]. *)
Inductive Part : Type :=
  | text_part (text : string)
  | inlineData (mimeType : string) (data : option string).

Record GenerateContentParameters : Type := {
  model : string;
  parts : list Part;
  responseMimeType : string;
  responseSchema : Schema
}.

(** The response of the remote model; [text] is [None] where the getter
    gives [undefined]. *)
Record GenerateContentResponse : Type := { text : option string }.

(** The client object [ai]: what the awaited remote call gives, or the error
    it rejects with. The module throws while loading when no API key is
    set, so [analyzeImage] exists only with a client. *)
Record GoogleGenAI : Type := {
  generateContent : GenerateContentParameters -> Throws GenerateContentResponse
}.

Definition instruction : string :=
  "Analyze the person's facial expression in this image to determine their primary emotion. Also, analyze their environment (e.g., lighting, background). Based on this, provide an encouraging message and a productivity tip. Respond with only a valid JSON object matching the provided schema.".

Definition request (base64Image : option string) : GenerateContentParameters := {|
  model := "gemini-2.5-flash";
  parts := [text_part instruction; inlineData "image/jpeg" base64Image];
  responseMimeType := "application/json";
  responseSchema := analysisSchema
|}.

Definition analysis_failed : string :=
  "Failed to get analysis from Gemini API. Please check your API key and network connection.".

Section AnalysisClient.
Context `{Builtins}.

(** [response.text.trim()]. *)
Definition trimmed_text (response : GenerateContentResponse) : Throws string :=
  match text response with
  | Some t => Ok (String_trim t)
  | None => Throw (TypeError "Cannot read properties of undefined (reading 'trim')")
  end.

(** The emotion check of [analyzeImage]: the template literal of the
    warning is evaluated first, then the warning is written, then the
    field is overwritten. *)
Definition validate_emotion (result : Value) : Eff Value :=
  e <~ lift (get result Key.emotion) ;;
  if negb (includes emotionValues e) then
    (if toString_throws e
     then throw (TypeError "Cannot convert object to primitive value")
     else ret tt) ;;;
    log (console_warn "Received unknown emotion: " e ". Defaulting to NEUTRAL.") ;;;
    lift (set result Key.emotion (JStr (Emotion_value NEUTRAL)))
  else ret result.

(** The body of the [try] block. *)
Definition analyzeImage_try (ai : GoogleGenAI) (base64Image : option string)
  : Eff Value :=
  response <~ lift (generateContent ai (request base64Image)) ;;
  jsonString <~ lift (trimmed_text response) ;;
  result <~ lift (JSON_parse jsonString) ;;
  validate_emotion result.

(** [analyzeImage]: the value returned is the parsed object itself, cast
    to [AnalysisResult] without a check. *)
Definition analyzeImage (ai : GoogleGenAI) (base64Image : option string)
  : Eff Value :=
  try_catch (analyzeImage_try ai base64Image)
    (fun error =>
       log (console_error "Error analyzing image with Gemini API:" error) ;;;
       throw (MkError analysis_failed)).

End AnalysisClient.

(** ** An executable instance of the built-ins

    [String.prototype.trim] and [JSON.parse] on UTF-8 text, for running the
    embedding on concrete responses. The theorems on [analyzeImage] hold for
    every instance of [Builtins]; this one fixes the text-to-value step of the
    worked examples. *)

Module Reference.

Definition bytes (codes : list N) : string :=
  fold_right (fun n s => String (ascii_of_N n) s) EmptyString codes.

(** WhiteSpace and LineTerminator of ECMAScript, in UTF-8:
    U+0009..U+000D, U+0020, U+00A0, U+1680, U+2000..U+200A, U+2028, U+2029,
    U+202F, U+205F, U+3000, U+FEFF. *)
Definition white_space : list string :=
  map bytes
    [ [9]; [10]; [11]; [12]; [13]; [32]; [194; 160]; [225; 154; 128];
      [226; 128; 128]; [226; 128; 129]; [226; 128; 130]; [226; 128; 131];
      [226; 128; 132]; [226; 128; 133]; [226; 128; 134]; [226; 128; 135];
      [226; 128; 136]; [226; 128; 137]; [226; 128; 138];
      [226; 128; 168]; [226; 128; 169]; [226; 128; 175]; [226; 129; 159];
      [227; 128; 128]; [239; 187; 191] ]%N.

Definition reverse (s : string) : string :=
  string_of_list_ascii (rev (list_ascii_of_string s)).

Fixpoint drop_string (n : nat) (s : string) : string :=
  match n, s with
  | S n', String _ s' => drop_string n' s'
  | _, _ => s
  end.

(** Drops the white space at the start of [s]; [fuel] bounds the number of
    characters dropped. *)
Fixpoint trimStart_with (ws : list string) (fuel : nat) (s : string) : string :=
  match fuel with
  | O => s
  | S fuel' =>
      match find (fun w => String.prefix w s) ws with
      | Some w => trimStart_with ws fuel' (drop_string (String.length w) s)
      | None => s
      end
  end.

Definition trim (s : string) : string :=
  let s1 := trimStart_with white_space (String.length s) s in
  reverse (trimStart_with (map reverse white_space) (String.length s1) (reverse s1)).

(** *** JSON text *)

Definition code (c : ascii) : N := N_of_ascii c.

Definition is_json_ws (c : ascii) : bool :=
  (code c =? 32)%N || (code c =? 9)%N || (code c =? 10)%N || (code c =? 13)%N.

Fixpoint skip_ws (s : list ascii) : list ascii :=
  match s with
  | c :: r => if is_json_ws c then skip_ws r else s
  | [] => []
  end.

Definition digit (c : ascii) : option Z :=
  let n := code c in
  if ((48 <=? n) && (n <=? 57))%N then Some (Z.of_N n - 48) else None.

Definition hex_digit (c : ascii) : option N :=
  let n := code c in
  if ((48 <=? n) && (n <=? 57))%N then Some (n - 48)%N
  else if ((65 <=? n) && (n <=? 70))%N then Some (n - 55)%N
  else if ((97 <=? n) && (n <=? 102))%N then Some (n - 87)%N
  else None.

(** The longest run of digits at the start of [s]: its value after [acc],
    how many there are, and the rest. *)
Fixpoint digits (acc : Z) (count : nat) (s : list ascii) : Z * nat * list ascii :=
  match s with
  | c :: r =>
      match digit c with
      | Some d => digits (10 * acc + d) (S count) r
      | None => (acc, count, s)
      end
  | [] => (acc, count, [])
  end.

(** A number literal: [-]? int ([.] digits)? ([eE] [+-]? digits)?, where
    int is [0] or starts with a digit from 1 to 9. *)
Definition parse_number (s : list ascii) : option (Value * list ascii) :=
  let '(negative, s) :=
    match s with
    | c :: r => if (code c =? 45)%N then (true, r) else (false, s)
    | [] => (false, s)
    end in
  let int_part : option (Z * list ascii) :=
    match s with
    | c :: r =>
        if (code c =? 48)%N then Some (0, r)
        else match digit c with
             | Some _ => let '(v, _, r') := digits 0 0 s in Some (v, r')
             | None => None
             end
    | [] => None
    end in
  match int_part with
  | None => None
  | Some (int, s) =>
      let frac_part : option (Z * nat * list ascii) :=
        match s with
        | c :: r =>
            if (code c =? 46)%N then
              match digits int 0 r with
              | (_, O, _) => None
              | (v, n, r') => Some (v, n, r')
              end
            else Some (int, O, s)
        | [] => Some (int, O, s)
        end in
      match frac_part with
      | None => None
      | Some (mant, nfrac, s) =>
          let exp_part : option (Z * list ascii) :=
            match s with
            | c :: r =>
                if (code c =? 101)%N || (code c =? 69)%N then
                  let '(minus, r) :=
                    match r with
                    | c' :: r' =>
                        if (code c' =? 45)%N then (true, r')
                        else if (code c' =? 43)%N then (false, r')
                        else (false, r)
                    | [] => (false, r)
                    end in
                  match digits 0 0 r with
                  | (_, O, _) => None
                  | (v, _, r') => Some (if minus then - v else v, r')
                  end
                else Some (0, s)
            | [] => Some (0, s)
            end in
          match exp_part with
          | None => None
          | Some (e, s) =>
              Some (JNum (if negative then - mant else mant) (e - Z.of_nat nfrac), s)
          end
      end
  end.

(** What a string literal holds between its quotes: bytes copied from the
    text, and the UTF-16 code units written as [\uXXXX]. *)
Inductive Piece : Type :=
  | Raw (c : ascii)
  | Unit16 (n : N).

(** The pieces up to the closing quote, and the text after it. Control
    characters below U+0020 are not allowed in a string. *)
Fixpoint string_pieces (s : list ascii) : option (list Piece * list ascii) :=
  let cons p r :=
    match string_pieces r with
    | Some (ps, rest) => Some (p :: ps, rest)
    | None => None
    end in
  match s with
  | [] => None
  | c :: r =>
      if (code c =? 34)%N then Some ([], r)
      else if (code c <? 32)%N then None
      else if (code c =? 92)%N then
        match r with
        | e :: r1 =>
            let n := code e in
            if (n =? 34)%N || (n =? 92)%N || (n =? 47)%N then cons (Raw e) r1
            else if (n =? 98)%N then cons (Raw (ascii_of_N 8)) r1
            else if (n =? 102)%N then cons (Raw (ascii_of_N 12)) r1
            else if (n =? 110)%N then cons (Raw (ascii_of_N 10)) r1
            else if (n =? 114)%N then cons (Raw (ascii_of_N 13)) r1
            else if (n =? 116)%N then cons (Raw (ascii_of_N 9)) r1
            else if (n =? 117)%N then
              match r1 with
              | h1 :: h2 :: h3 :: h4 :: r2 =>
                  match hex_digit h1, hex_digit h2, hex_digit h3, hex_digit h4 with
                  | Some a, Some b, Some c', Some d =>
                      cons (Unit16 (((a * 16 + b) * 16 + c') * 16 + d)%N) r2
                  | _, _, _, _ => None
                  end
              | _ => None
              end
            else None
        | [] => None
        end
      else cons (Raw c) r
  end.

(** UTF-8 of a code point (surrogates included, as three bytes). *)
Definition utf8 (n : N) : list ascii :=
  map ascii_of_N
    (if n <? 128 then [n]
     else if n <? 2048 then [192 + n / 64; 128 + n mod 64]
     else if n <? 65536 then
       [224 + n / 4096; 128 + (n / 64) mod 64; 128 + n mod 64]
     else
       [240 + n / 262144; 128 + (n / 4096) mod 64;
        128 + (n / 64) mod 64; 128 + n mod 64])%N.

Definition is_high (n : N) : bool := ((55296 <=? n) && (n <=? 56319))%N.
Definition is_low (n : N) : bool := ((56320 <=? n) && (n <=? 57343))%N.

(** The bytes of the pieces; a high surrogate followed by a low one is one
    code point. *)
Fixpoint encode (ps : list Piece) : list ascii :=
  match ps with
  | [] => []
  | Raw c :: r => c :: encode r
  | Unit16 hi :: r =>
      match r with
      | Unit16 lo :: r' =>
          if is_high hi && is_low lo
          then (utf8 (65536 + (hi - 55296) * 1024 + (lo - 56320))%N ++ encode r')%list
          else (utf8 hi ++ encode r)%list
      | _ => (utf8 hi ++ encode r)%list
      end
  end.

(** A string literal, after its opening quote. *)
Definition parse_string (s : list ascii) : option (string * list ascii) :=
  match string_pieces s with
  | Some (ps, rest) => Some (string_of_list_ascii (encode ps), rest)
  | None => None
  end.

Definition expect (word : string) (v : Value) (s : list ascii)
  : option (Value * list ascii) :=
  let w := list_ascii_of_string word in
  if bool_decide (take (length w) s = w) then Some (v, drop (length w) s) else None.

(** A value at the start of [s] (white space skipped by the caller), the
    elements of an array after its first, and the members of an object. A
    repeated name keeps the last value. [fuel] bounds the nesting of calls. *)
Fixpoint parse_value (fuel : nat) (s : list ascii) : option (Value * list ascii) :=
  match fuel with
  | O => None
  | S fuel' =>
      match s with
      | [] => None
      | c :: r =>
          let n := code c in
          if (n =? 34)%N then
            match parse_string r with
            | Some (str, rest) => Some (JStr str, rest)
            | None => None
            end
          else if (n =? 116)%N then expect "true" (JBool true) s
          else if (n =? 102)%N then expect "false" (JBool false) s
          else if (n =? 110)%N then expect "null" JNull s
          else if (n =? 91)%N then
            match skip_ws r with
            | c' :: r' =>
                if (code c' =? 93)%N then Some (JArr [] ∅, r')
                else
                  match parse_value fuel' (c' :: r') with
                  | Some (v, rest) =>
                      match parse_elements fuel' [v] rest with
                      | Some (vs, rest') => Some (JArr vs ∅, rest')
                      | None => None
                      end
                  | None => None
                  end
            | [] => None
            end
          else if (n =? 123)%N then
            match skip_ws r with
            | c' :: r' =>
                if (code c' =? 125)%N then Some (JObj ∅, r')
                else
                  match parse_members fuel' ∅ (c' :: r') with
                  | Some (m, rest) => Some (JObj m, rest)
                  | None => None
                  end
            | [] => None
            end
          else parse_number s
      end
  end
with parse_elements (fuel : nat) (acc : list Value) (s : list ascii)
  : option (list Value * list ascii) :=
  match fuel with
  | O => None
  | S fuel' =>
      match skip_ws s with
      | c :: r =>
          if (code c =? 93)%N then Some (acc, r)
          else if (code c =? 44)%N then
            match parse_value fuel' (skip_ws r) with
            | Some (v, rest) => parse_elements fuel' (acc ++ [v])%list rest
            | None => None
            end
          else None
      | [] => None
      end
  end
with parse_members (fuel : nat) (acc : gmap string Value) (s : list ascii)
  : option (gmap string Value * list ascii) :=
  match fuel with
  | O => None
  | S fuel' =>
      match s with
      | c :: r =>
          if (code c =? 34)%N then
            match parse_string r with
            | Some (name, rest) =>
                match skip_ws rest with
                | c1 :: r1 =>
                    if (code c1 =? 58)%N then
                      match parse_value fuel' (skip_ws r1) with
                      | Some (v, rest1) =>
                          match skip_ws rest1 with
                          | c2 :: r2 =>
                              if (code c2 =? 125)%N then Some (<[name := v]> acc, r2)
                              else if (code c2 =? 44)%N
                              then parse_members fuel' (<[name := v]> acc) (skip_ws r2)
                              else None
                          | [] => None
                          end
                      | None => None
                      end
                    else None
                | [] => None
                end
            | None => None
            end
          else None
      | [] => None
      end
  end.

(** [JSON.parse]: one value between optional white space. Every nested
    call consumes a character before the next, so twice the length of the
    text is fuel enough. *)
Definition parse (s : string) : Throws Value :=
  let input := list_ascii_of_string s in
  match parse_value (2 * length input + 2) (skip_ws input) with
  | Some (v, rest) =>
      match skip_ws rest with
      | [] => Ok v
      | _ :: _ => Throw (SyntaxError "Unexpected token in JSON")
      end
  | None => Throw (SyntaxError "Unexpected token in JSON")
  end.

Definition builtins : Builtins := {| String_trim := trim; JSON_parse := parse |}.

(** The double quote, and a name or a string between quotes. *)
Definition dq : string := String (ascii_of_N 34) EmptyString.
Definition quoted (s : string) : string := dq ++ s ++ dq.

End Reference.

(** ** [src/hooks/useSpeechSynthesis.ts] *)

(** [hay.includes(needle)] and [s.startsWith(prefix)] on strings. *)
Fixpoint String_includes (needle hay : string) : bool :=
  String.prefix needle hay
  || match hay with
     | String _ rest => String_includes needle rest
     | EmptyString => false
     end.

Definition String_startsWith (prefix s : string) : bool := String.prefix prefix s.

(** The properties of a voice that [speak] reads, and its URI. *)
Record SpeechSynthesisVoice : Type := {
  name : string;
  lang : string;
  voiceURI : string
}.

(** An utterance as [speak] hands it to the synthesizer; [voice] is [None]
    where none was assigned and the synthesizer uses its default. *)
Record SpeechSynthesisUtterance : Type := {
  u_text : string;
  voice : option SpeechSynthesisVoice;
  pitch : Z;
  rate : Z;
  volume : Z
}.

(** A call on [window.speechSynthesis]. *)
Inductive SynthCall : Type :=
  | synth_cancel
  | synth_speak (u : SpeechSynthesisUtterance).

(** The state of the hook. *)
Record SpeechState : Type := {
  voices : list SpeechSynthesisVoice;
  speaking : bool
}.

(** [a || b] on values that are objects or [undefined]. *)
Definition or_else {A} (a b : option A) : option A :=
  match a with
  | Some x => Some x
  | None => b
  end.

Definition preferredVoice (voices : list SpeechSynthesisVoice)
  : option SpeechSynthesisVoice :=
  or_else
    (or_else
       (find (fun voice => String_includes "Google" (name voice)
                           && String_startsWith "en" (lang voice)) voices)
       (find (fun voice => String_startsWith "en-US" (lang voice)) voices))
    (find (fun voice => String_startsWith "en" (lang voice)) voices).

(** [!text] on a string. *)
Definition is_empty (text : string) : bool :=
  match text with
  | EmptyString => true
  | String _ _ => false
  end.

(** [speak], as the callback built from the hook state [h]; [speechSynthesis]
    tells whether [window.speechSynthesis] is defined. The result is the
    calls made on the synthesizer, in order. *)
Definition speak (speechSynthesis : bool) (h : SpeechState) (text : string)
  : list SynthCall :=
  if is_empty text || negb speechSynthesis then []
  else
    (if speaking h then [synth_cancel] else [])
    ++ [synth_speak {| u_text := text;
                       voice := preferredVoice (voices h);
                       pitch := 1; rate := 1; volume := 1 |}].

(** [speak] on whatever value the caller hands over: the parameter is
    declared a string, the argument is a field of the response. The guard
    looks at the value, the constructor of the utterance converts it to a
    string, and the conversion may throw, after the [cancel]. The result is
    the calls made and the error thrown, if any. *)
Definition speak_value (speechSynthesis : bool) (h : SpeechState) (text : Value)
  : list SynthCall * option Error :=
  if negb (truthy text) || negb speechSynthesis then ([], None)
  else
    let cancelled := if speaking h then [synth_cancel] else [] in
    match toString text with
    | Ok s =>
        ((cancelled ++ [synth_speak {| u_text := s;
                                       voice := preferredVoice (voices h);
                                       pitch := 1; rate := 1; volume := 1 |}])%list,
         None)
    | Throw e => (cancelled, Some e)
    end.

(** ** [src/App.tsx]: the theme tables *)

Record EmotionConfig : Type := {
  gradient : string;
  icon : string;
  title : string
}.

Definition emotionConfig : gmap string EmotionConfig :=
  list_to_map [
    (Emotion_value HAPPY,
     {| gradient := "from-yellow-400 via-orange-500 to-red-500";
        icon := "üòä";
        title := "Radiating Joy!" |});
    (Emotion_value SAD,
     {| gradient := "from-blue-400 via-indigo-500 to-purple-600";
        icon := "üò¢";
        title := "Feeling Blue" |});
    (Emotion_value STRESSED,
     {| gradient := "from-red-500 via-pink-600 to-purple-700";
        icon := "üò´";
        title := "Feeling Stressed" |});
    (Emotion_value FOCUSED,
     {| gradient := "from-green-400 via-teal-500 to-cyan-600";
        icon := "ü§î";
        title := "In The Zone" |});
    (Emotion_value TIRED,
     {| gradient := "from-gray-600 via-slate-700 to-zinc-800";
        icon := "üò¥";
        title := "Feeling Tired" |});
    (Emotion_value NEUTRAL,
     {| gradient := "from-slate-500 via-gray-600 to-slate-700";
        icon := "üòê";
        title := "Calm & Collected" |});
    (Emotion_value SURPRISED,
     {| gradient := "from-pink-400 via-purple-500 to-indigo-500";
        icon := "üò≤";
        title := "Surprised!" |});
    (Emotion_value ANGRY,
     {| gradient := "from-red-600 via-rose-700 to-red-800";
        icon := "üò†";
        title := "Feeling Angry" |})
  ].

Definition emotionVisualEffects : gmap string string :=
  list_to_map [
    (Emotion_value HAPPY, "border-yellow-300/50 animate-pulse-slow");
    (Emotion_value FOCUSED, "border-cyan-400/70 shadow-lg shadow-cyan-400/50");
    (Emotion_value SAD, "border-blue-400/30");
    (Emotion_value STRESSED, "border-red-500/60 animate-shake-fast");
    (Emotion_value ANGRY, "border-red-600/80 animate-shake-fast");
    (Emotion_value TIRED, "border-transparent vignette");
    (Emotion_value SURPRISED, "border-indigo-400/80 animate-ping-once");
    (Emotion_value NEUTRAL, "border-transparent")
  ].

Definition emotionFilterEffects : gmap string string :=
  list_to_map [
    (Emotion_value SAD, "saturate-[.75] brightness-90");
    (Emotion_value TIRED, "brightness-90")
  ].

(** ** [src/App.tsx]: the component state and what is derived from it *)

Record UiState : Type := {
  isAnalyzing : bool;
  isLoading : bool;
  error : option string;
  analysisResult : option AnalysisResult;
  lastSpokenMessage : Value;
  surpriseKey : Z
}.

Definition setIsAnalyzing (b : bool) (u : UiState) : UiState :=
  {| isAnalyzing := b; isLoading := isLoading u; error := error u;
     analysisResult := analysisResult u;
     lastSpokenMessage := lastSpokenMessage u; surpriseKey := surpriseKey u |}.

Definition setIsLoading (b : bool) (u : UiState) : UiState :=
  {| isAnalyzing := isAnalyzing u; isLoading := b; error := error u;
     analysisResult := analysisResult u;
     lastSpokenMessage := lastSpokenMessage u; surpriseKey := surpriseKey u |}.

Definition setError (e : option string) (u : UiState) : UiState :=
  {| isAnalyzing := isAnalyzing u; isLoading := isLoading u; error := e;
     analysisResult := analysisResult u;
     lastSpokenMessage := lastSpokenMessage u; surpriseKey := surpriseKey u |}.

Definition setAnalysisResult (r : option AnalysisResult) (u : UiState) : UiState :=
  {| isAnalyzing := isAnalyzing u; isLoading := isLoading u; error := error u;
     analysisResult := r;
     lastSpokenMessage := lastSpokenMessage u; surpriseKey := surpriseKey u |}.

Definition setLastSpokenMessage (m : Value) (u : UiState) : UiState :=
  {| isAnalyzing := isAnalyzing u; isLoading := isLoading u; error := error u;
     analysisResult := analysisResult u;
     lastSpokenMessage := m; surpriseKey := surpriseKey u |}.

Definition setSurpriseKey (k : Z) (u : UiState) : UiState :=
  {| isAnalyzing := isAnalyzing u; isLoading := isLoading u; error := error u;
     analysisResult := analysisResult u;
     lastSpokenMessage := lastSpokenMessage u; surpriseKey := k |}.

(** [analysisResult?.emotion || Emotion.NEUTRAL]: the empty string is the
    only string that [||] replaces. *)
Definition currentEmotion (u : UiState) : string :=
  match analysisResult u with
  | Some r =>
      let e := Emotion_value (emotion r) in
      if is_empty e then Emotion_value NEUTRAL else e
  | None => Emotion_value NEUTRAL
  end.

(** What the render derives from the state for the theme. A class read from
    a table is [None] where the table has no entry ([undefined]). *)
Record Theme : Type := {
  th_gradient : string;
  th_icon : string;
  th_title : string;
  visualEffectClass : option string;
  filterEffectClass : string
}.

(** Lines 93 to 96 of the component. Destructuring a missing entry of
    [emotionConfig] throws. *)
Definition theme (u : UiState) : Throws Theme :=
  match emotionConfig !! currentEmotion u with
  | None => Throw (TypeError "Cannot destructure property 'gradient' of undefined")
  | Some cfg =>
      let shown := isAnalyzing u && bool_decide (is_Some (analysisResult u)) in
      Ok {| th_gradient := gradient cfg;
            th_icon := icon cfg;
            th_title := title cfg;
            visualEffectClass :=
              if shown then emotionVisualEffects !! currentEmotion u
              else emotionVisualEffects !! Emotion_value NEUTRAL;
            filterEffectClass :=
              if shown then default EmptyString (emotionFilterEffects !! currentEmotion u)
              else EmptyString |}
  end.

(** ** [src/App.tsx]: the capture loop

    The component is modelled from its mount on, for as long as it stays
    mounted. An event is a click on one of the two buttons, a tick of an
    interval timer, the settling of an awaited call, or a notification from
    the browser. The state updates of one event and the effect they
    trigger are committed before the next event is delivered. How React
    renders is not in these sources: a render is taken to succeed, also
    where a card is given a text that is no string. *)

(** [s.split(sep)] for a separator of one character. *)
Fixpoint String_split (sep : ascii) (s : string) : list string :=
  match s with
  | EmptyString => [EmptyString]
  | String c rest =>
      if Ascii.eqb c sep then EmptyString :: String_split sep rest
      else match String_split sep rest with
           | piece :: pieces => String c piece :: pieces
           | [] => [String c EmptyString]
           end
  end.

(** What the browser offers: [window.speechSynthesis] and
    [navigator.mediaDevices.getUserMedia]. *)
Record Browser : Type := {
  speechSynthesis : bool;
  mediaDevices : bool
}.

Record HTMLVideoElement : Type := {
  videoWidth : Z;
  videoHeight : Z
}.

(** The canvas at the time of a tick: whether [getContext('2d')] gives a
    context, and what [toDataURL] returns once the frame is drawn. *)
Record HTMLCanvasElement : Type := {
  context2d : bool;
  dataURL : string
}.

(** [videoRef.current] and [canvasRef.current]. *)
Record Dom : Type := {
  videoRef : option HTMLVideoElement;
  canvasRef : option HTMLCanvasElement
}.

(** The values an instance of [captureAndAnalyze] closed over when the
    render created it: [isLoading], [lastSpokenMessage], and [speak] with
    the hook state it was built from. *)
Record Callback : Type := {
  cb_isLoading : bool;
  cb_lastSpokenMessage : Value;
  cb_speech : SpeechState
}.

Record Interval : Type := {
  delay : Z;
  handler : Callback
}.

(** The calls the component makes on the browser and the remote client.
    A camera stream is named by a number, in the order the browser granted
    them. The quality given to [toDataURL] is counted in tenths (7 for
    0.7). *)
Inductive Call : Type :=
  | getUserMedia (width height : Z)
  | stop_tracks (stream : nat)
  | setInterval (id : Z) (delay : Z)
  | clearInterval (id : Z)
  | drawImage (width height : Z)
  | toDataURL (type : string) (quality_tenths : Z)
  | call_generateContent (req : GenerateContentParameters)
  | call_synth (c : SynthCall)
  | call_console (c : ConsoleEntry).

Record App : Type := {
  browser : Browser;
  ui : UiState;
  speech : SpeechState;
  (** [intervalRef.current] *)
  intervalRef : option Z;
  (** [streamRef.current]: the stream it holds *)
  streamRef : option nat;
  (** the streams granted whose tracks have not been stopped, and the
      number of the next stream the browser grants *)
  streams : gset nat;
  nextStream : nat;
  (** the interval timers of the window that are running *)
  timers : gmap Z Interval;
  nextTimer : Z;
  (** [getUserMedia] calls not settled yet *)
  cameraRequests : nat;
  (** [analyzeImage] calls awaited: the image sent and the instance of
      [captureAndAnalyze] that awaits *)
  inflight : list (option string * Callback);
  (** the calls made so far, oldest first *)
  calls : list Call
}.

Definition with_ui (u : UiState) (a : App) : App :=
  {| browser := browser a; ui := u; speech := speech a;
     intervalRef := intervalRef a; streamRef := streamRef a;
     streams := streams a; nextStream := nextStream a;
     timers := timers a; nextTimer := nextTimer a;
     cameraRequests := cameraRequests a; inflight := inflight a;
     calls := calls a |}.

Definition with_speech (s : SpeechState) (a : App) : App :=
  {| browser := browser a; ui := ui a; speech := s;
     intervalRef := intervalRef a; streamRef := streamRef a;
     streams := streams a; nextStream := nextStream a;
     timers := timers a; nextTimer := nextTimer a;
     cameraRequests := cameraRequests a; inflight := inflight a;
     calls := calls a |}.

Definition with_intervalRef (r : option Z) (a : App) : App :=
  {| browser := browser a; ui := ui a; speech := speech a;
     intervalRef := r; streamRef := streamRef a;
     streams := streams a; nextStream := nextStream a;
     timers := timers a; nextTimer := nextTimer a;
     cameraRequests := cameraRequests a; inflight := inflight a;
     calls := calls a |}.

Definition with_streamRef (s : option nat) (a : App) : App :=
  {| browser := browser a; ui := ui a; speech := speech a;
     intervalRef := intervalRef a; streamRef := s;
     streams := streams a; nextStream := nextStream a;
     timers := timers a; nextTimer := nextTimer a;
     cameraRequests := cameraRequests a; inflight := inflight a;
     calls := calls a |}.

Definition with_streams (live : gset nat) (next : nat) (a : App) : App :=
  {| browser := browser a; ui := ui a; speech := speech a;
     intervalRef := intervalRef a; streamRef := streamRef a;
     streams := live; nextStream := next;
     timers := timers a; nextTimer := nextTimer a;
     cameraRequests := cameraRequests a; inflight := inflight a;
     calls := calls a |}.

Definition with_timers (t : gmap Z Interval) (next : Z) (a : App) : App :=
  {| browser := browser a; ui := ui a; speech := speech a;
     intervalRef := intervalRef a; streamRef := streamRef a;
     streams := streams a; nextStream := nextStream a;
     timers := t; nextTimer := next;
     cameraRequests := cameraRequests a; inflight := inflight a;
     calls := calls a |}.

Definition with_cameraRequests (n : nat) (a : App) : App :=
  {| browser := browser a; ui := ui a; speech := speech a;
     intervalRef := intervalRef a; streamRef := streamRef a;
     streams := streams a; nextStream := nextStream a;
     timers := timers a; nextTimer := nextTimer a;
     cameraRequests := n; inflight := inflight a;
     calls := calls a |}.

Definition with_inflight (l : list (option string * Callback)) (a : App) : App :=
  {| browser := browser a; ui := ui a; speech := speech a;
     intervalRef := intervalRef a; streamRef := streamRef a;
     streams := streams a; nextStream := nextStream a;
     timers := timers a; nextTimer := nextTimer a;
     cameraRequests := cameraRequests a; inflight := l;
     calls := calls a |}.

Definition called (cs : list Call) (a : App) : App :=
  {| browser := browser a; ui := ui a; speech := speech a;
     intervalRef := intervalRef a; streamRef := streamRef a;
     streams := streams a; nextStream := nextStream a;
     timers := timers a; nextTimer := nextTimer a;
     cameraRequests := cameraRequests a; inflight := inflight a;
     calls := (calls a ++ cs)%list |}.

(** The component after its mount: nothing runs and nothing was spoken.
    The effect on [isAnalyzing] runs at the mount too, and finds no stream
    and no timer. The voices the mount effect of the hook reads arrive as a
    first [VoicesChanged] below. *)
Definition mounted (b : Browser) : App :=
  {| browser := b;
     ui := {| isAnalyzing := false; isLoading := false; error := None;
              analysisResult := None; lastSpokenMessage := JStr EmptyString;
              surpriseKey := 0 |};
     speech := {| voices := []; speaking := false |};
     intervalRef := None; streamRef := None;
     streams := ∅; nextStream := 0%nat;
     timers := ∅; nextTimer := 1;
     cameraRequests := 0%nat; inflight := []; calls := [] |}.

(** The mount. The effect of the hook calls [window.speechSynthesis.getVoices()]
    without a check (line 10): in a browser without speech synthesis it
    throws, and there is no component. *)
Definition mount (b : Browser) : Throws App :=
  if speechSynthesis b then Ok (mounted b)
  else Throw (TypeError "Cannot read properties of undefined (reading 'getVoices')").

(** [startWebcam] up to its [await] (lines 98 to 101 and 106 to 108). *)
Definition startWebcam (a : App) : App :=
  if mediaDevices (browser a)
  then with_cameraRequests (S (cameraRequests a)) (called [getUserMedia 1280 720] a)
  else with_ui (setError (Some "Your browser does not support camera access.") (ui a)) a.

(** [startWebcam] from the [await] on, when the camera is granted (lines 102
    to 105): the new stream is attached and [streamRef] holds it, in place
    of the one it held. The video element is part of every render. *)
Definition startWebcam_granted (a : App) : App :=
  let stream := nextStream a in
  with_streamRef (Some stream)
    (with_streams ({[ stream ]} ∪ streams a) (S stream) a).

(** The same when the camera is refused (lines 109 to 112). *)
Definition startWebcam_denied (err : Error) (a : App) : App :=
  let a := called [call_console (console_error "Error accessing webcam:" err)] a in
  with_ui (setError (Some "Could not access camera. Please check permissions.") (ui a)) a.

Definition stopWebcam (a : App) : App :=
  match streamRef a with
  | Some stream =>
      with_streamRef None
        (with_streams (streams a ∖ {[ stream ]}) (nextStream a)
           (called [stop_tracks stream] a))
  | None => a
  end.

(** [window.setInterval(handler, delay)]: a new timer and its id. *)
Definition window_setInterval (cb : Callback) (ms : Z) (a : App) : Z * App :=
  let id := nextTimer a in
  (id, with_timers (<[id := {| delay := ms; handler := cb |}]> (timers a)) (id + 1)
         (called [setInterval id ms] a)).

Definition window_clearInterval (id : Z) (a : App) : App :=
  with_timers (delete id (timers a)) (nextTimer a) (called [clearInterval id] a).

(** The instance of [captureAndAnalyze] of the current render: [useCallback]
    rebuilds it whenever [isLoading], [speak] or [lastSpokenMessage]
    changes, and [speak] whenever the hook state changes. *)
Definition current_callback (a : App) : Callback :=
  {| cb_isLoading := isLoading (ui a);
     cb_lastSpokenMessage := lastSpokenMessage (ui a);
     cb_speech := speech a |}.

(** The effect on [isAnalyzing] (lines 160 to 181). Its dependency list is
    [[isAnalyzing]] alone, so the handler given to [setInterval] stays the
    [captureAndAnalyze] of the render in which [isAnalyzing] became true. *)
Definition effect_cleanup (a : App) : App :=
  let a := stopWebcam a in
  match intervalRef a with
  | Some id => window_clearInterval id a
  | None => a
  end.

Definition effect_body (a : App) : App :=
  if isAnalyzing (ui a) then
    let cb := current_callback a in
    let a := startWebcam a in
    let '(id, a) := window_setInterval cb 5000 a in
    with_intervalRef (Some id) a
  else
    let a := stopWebcam a in
    match intervalRef a with
    | Some id => with_intervalRef None (window_clearInterval id a)
    | None => a
    end.

(** The render that follows an event: the effect runs when [isAnalyzing]
    differs from what it was before the event. *)
Definition commit (before : bool) (a : App) : App :=
  if Bool.eqb before (isAnalyzing (ui a)) then a
  else effect_body (effect_cleanup a).

Definition handleStart (u : UiState) : UiState :=
  setIsAnalyzing true (setAnalysisResult None (setError None u)).

Definition handleStop (u : UiState) : UiState :=
  setIsAnalyzing false u.

Definition Emotion_of_string (s : string) : option Emotion :=
  find (fun e => String.eqb (Emotion_value e) s) Emotion_members.

(** The member of the enum a value is, if it is one. *)
Definition Emotion_of_value (v : Value) : option Emotion :=
  match v with
  | JStr s => Emotion_of_string s
  | _ => None
  end.

(** [v.f] where [v] is an object or an array. *)
Definition field (v : Value) (f : Field) : Value :=
  match get v f with
  | Ok x => x
  | Throw _ => JUndefined
  end.

(** [result as AnalysisResult]: the four properties the component reads off
    the value [analyzeImage] returned. The cast checks nothing; the value
    is an object or an array whose emotion is a member of the enum, since
    it went through the check of [analyzeImage]. *)
Definition asAnalysisResult (v : Value) : option AnalysisResult :=
  match v with
  | JObj _ | JArr _ _ =>
      e ← Emotion_of_value (field v Key.emotion);
      Some {| emotion := e;
              environmentAnalysis := field v Key.environmentAnalysis;
              encouragingMessage := field v Key.encouragingMessage;
              productivityTip := field v Key.productivityTip |}
  | _ => None
  end.

(** The shape the interface declares: an object whose emotion is a member
    of the enum and whose three other fields are strings. *)
Definition is_string (v : Value) : bool :=
  match v with
  | JStr _ => true
  | _ => false
  end.

Definition is_AnalysisResult (v : Value) : bool :=
  match v with
  | JObj _ =>
      bool_decide (is_Some (Emotion_of_value (field v Key.emotion)))
      && is_string (field v Key.environmentAnalysis)
      && is_string (field v Key.encouragingMessage)
      && is_string (field v Key.productivityTip)
  | _ => false
  end.

(** [captureAndAnalyze] up to its [await] (lines 126 to 142), run by the
    instance [cb]. *)
Definition captureAndAnalyze (cb : Callback) (dom : Dom) (a : App) : App :=
  match cb_isLoading cb, videoRef dom, canvasRef dom with
  | false, Some video, Some canvas =>
      let a := with_ui (setError None (setIsLoading true (ui a))) a in
      if context2d canvas then
        let a := called [drawImage (videoWidth video) (videoHeight video);
                         toDataURL "image/jpeg" 7] a in
        let base64Image := String_split "," (dataURL canvas) !! 1%nat in
        with_inflight (inflight a ++ [(base64Image, cb)])%list
          (called [call_generateContent (request base64Image)] a)
      else with_ui (setIsLoading false (ui a)) a
  | _, _, _ => a
  end.

(** The [catch] of [captureAndAnalyze] (lines 151 to 154). *)
Definition captureAndAnalyze_catch (err : Error) (a : App) : App :=
  with_ui (setIsAnalyzing false (setError (Some (message err)) (ui a))) a.

(** The [try] of [captureAndAnalyze] after the [await] (lines 143 to 150),
    with the [catch] where [speak] throws. *)
Definition captureAndAnalyze_received (cb : Callback) (result : AnalysisResult)
    (now : Z) (a : App) : App :=
  let u := setAnalysisResult (Some result) (ui a) in
  let u := match emotion result with
           | SURPRISED => setSurpriseKey now u
           | _ => u
           end in
  let a := with_ui u a in
  if negb (strict_equal (encouragingMessage result) (cb_lastSpokenMessage cb))
  then
    let '(said, thrown) :=
      speak_value (speechSynthesis (browser a)) (cb_speech cb)
        (encouragingMessage result) in
    let a := called (map call_synth said) a in
    match thrown with
    | None => with_ui (setLastSpokenMessage (encouragingMessage result) (ui a)) a
    | Some err => captureAndAnalyze_catch err a
    end
  else a.

(** [captureAndAnalyze] from the [await] on (lines 142 to 157): [settled] is
    what [analyzeImage] wrote and gave, [now] is [Date.now()]. The result
    is [None] for a value that [analyzeImage] does not return
    ([analyzeImage_result_is_held]). *)
Definition captureAndAnalyze_resume (cb : Callback) (settled : Eff Value)
    (now : Z) (a : App) : option App :=
  let a := called (map call_console (console settled)) a in
  match outcome settled with
  | Ok v =>
      match asAnalysisResult v with
      | Some result =>
          let a := captureAndAnalyze_received cb result now a in
          Some (with_ui (setIsLoading false (ui a)) a)
      | None => None
      end
  | Throw err =>
      let a := captureAndAnalyze_catch err a in
      Some (with_ui (setIsLoading false (ui a)) a)
  end.

Inductive Event : Type :=
  | ClickStart
  | ClickStop
  | Tick (id : Z) (dom : Dom)
  | Settled (i : nat) (remote : Throws GenerateContentResponse) (now : Z)
  | CameraGranted
  | CameraDenied (err : Error)
  | VoicesChanged (available : list SpeechSynthesisVoice)
  | UtteranceStart
  | UtteranceEnd.

Section Loop.
Context `{Builtins}.

(** One event. [None]: the event cannot occur in this state: the button is
    not rendered, the timer does not run, no such call is awaited
    ([step_enabled] below). *)
Definition step (a : App) (ev : Event) : option App :=
  let before := isAnalyzing (ui a) in
  match ev with
  | ClickStart =>
      if before then None
      else Some (commit before (with_ui (handleStart (ui a)) a))
  | ClickStop =>
      if before then Some (commit before (with_ui (handleStop (ui a)) a))
      else None
  | Tick id dom =>
      match timers a !! id with
      | Some iv => Some (commit before (captureAndAnalyze (handler iv) dom a))
      | None => None
      end
  | Settled i remote now =>
      match inflight a !! i with
      | Some (base64Image, cb) =>
          let settled :=
            analyzeImage {| generateContent := fun _ => remote |} base64Image in
          commit before
            <$> captureAndAnalyze_resume cb settled now
                  (with_inflight (delete i (inflight a)) a)
      | None => None
      end
  | CameraGranted =>
      match cameraRequests a with
      | S n => Some (startWebcam_granted (with_cameraRequests n a))
      | O => None
      end
  | CameraDenied err =>
      match cameraRequests a with
      | S n => Some (startWebcam_denied err (with_cameraRequests n a))
      | O => None
      end
  | VoicesChanged available =>
      Some (with_speech {| voices := available; speaking := speaking (speech a) |} a)
  | UtteranceStart =>
      Some (with_speech {| voices := voices (speech a); speaking := true |} a)
  | UtteranceEnd =>
      Some (with_speech {| voices := voices (speech a); speaking := false |} a)
  end.

Fixpoint run (a : App) (evs : list Event) : option App :=
  match evs with
  | [] => Some a
  | ev :: rest =>
      match step a ev with
      | Some a' => run a' rest
      | None => None
      end
  end.

End Loop.

(** Whether the event can occur. *)
Definition enabled (a : App) (ev : Event) : bool :=
  match ev with
  | ClickStart => negb (isAnalyzing (ui a))
  | ClickStop => isAnalyzing (ui a)
  | Tick id _ => bool_decide (is_Some (timers a !! id))
  | Settled i _ _ => bool_decide (is_Some (inflight a !! i))
  | CameraGranted | CameraDenied _ => negb (Nat.eqb (cameraRequests a) 0)
  | VoicesChanged _ | UtteranceStart | UtteranceEnd => true
  end.

(** The utterances handed to the synthesizer, oldest first. *)
Definition spoken (a : App) : list string :=
  omap (fun c => match c with
                 | call_synth (synth_speak u) => Some (u_text u)
                 | _ => None
                 end) (calls a).

(** The frames drawn and encoded among the calls. *)
Definition is_snapshot (c : Call) : bool :=
  match c with
  | drawImage _ _ | toDataURL _ _ => true
  | _ => false
  end.

Definition snapshots (cs : list Call) : list Call := List.filter is_snapshot cs.

(** The calls an event adds. *)
Definition new_calls (a a' : App) : list Call := drop (length (calls a)) (calls a').

(** ** The voice preference, in the words of its description

    These definitions follow the description of the preference order, not
    the code; [preferredVoice] above is the code. *)

Definition contains (needle s : string) : Prop := ∃ a b, s = a ++ needle ++ b.

Definition starts_with (prefix s : string) : Prop := ∃ rest, s = prefix ++ rest.

Definition google_english (v : SpeechSynthesisVoice) : Prop :=
  contains "Google" (name v) ∧ starts_with "en" (lang v).

Definition us_english (v : SpeechSynthesisVoice) : Prop := starts_with "en-US" (lang v).

Definition english (v : SpeechSynthesisVoice) : Prop := starts_with "en" (lang v).

(** [v] is the first voice of the list with property [P]. *)
Definition first_with (P : SpeechSynthesisVoice -> Prop)
    (available : list SpeechSynthesisVoice) (v : SpeechSynthesisVoice) : Prop :=
  ∃ before after,
    available = (before ++ v :: after)%list ∧ P v ∧ ∀ w, In w before → ¬ P w.

Definition none_with (P : SpeechSynthesisVoice -> Prop)
    (available : list SpeechSynthesisVoice) : Prop :=
  ∀ w, In w available → ¬ P w.

Inductive best_voice (available : list SpeechSynthesisVoice)
  : option SpeechSynthesisVoice -> Prop :=
  | best_google v :
      first_with google_english available v ->
      best_voice available (Some v)
  | best_us v :
      none_with google_english available ->
      first_with us_english available v ->
      best_voice available (Some v)
  | best_english v :
      none_with google_english available ->
      none_with us_english available ->
      first_with english available v ->
      best_voice available (Some v)
  | best_default :
      none_with english available ->
      best_voice available None.

(** The emotion the render shows: that of the stored result, or NEUTRAL. *)
Definition shown_emotion (u : UiState) : Emotion :=
  match analysisResult u with
  | Some r => emotion r
  | None => NEUTRAL
  end.

(** The timers that run are the one [intervalRef] names while analysis runs,
    with the fixed delay, and none otherwise. *)
Definition timers_match (running : bool) (a : App) : Prop :=
  if running
  then ∃ id cb, intervalRef a = Some id
                ∧ timers a = {[ id := {| delay := 5000; handler := cb |} ]}
  else intervalRef a = None ∧ timers a = ∅.

Definition timer_invariant (a : App) : Prop := timers_match (isAnalyzing (ui a)) a.

(** ** Inputs for running the embedding *)

Module Sample.
Import Reference.

(** One member of a JSON object: the name and a string value, quoted. *)
Definition member (k v : string) : string := quoted k ++ ":" ++ quoted v.

(** A response text with the four fields, for the given emotion and
    encouraging message. *)
Definition full_text (e m : string) : string :=
  "{" ++ member "emotion" e
      ++ "," ++ member "environmentAnalysis" "Bright room, tidy desk"
      ++ "," ++ member "encouragingMessage" m
      ++ "," ++ member "productivityTip" "Take a short break"
      ++ "}".

Definition full (e m : string) : Throws GenerateContentResponse :=
  Ok {| text := Some (full_text e m) |}.

(** A response text with the emotion field alone. *)
Definition emotion_only : Throws GenerateContentResponse :=
  Ok {| text := Some ("{" ++ member "emotion" "HAPPY" ++ "}") |}.

(** A response text that is no JSON. *)
Definition truncated : Throws GenerateContentResponse :=
  Ok {| text := Some ("{" ++ quoted "emotion" ++ ":") |}.

(** Response texts that are JSON but no object with a printable emotion: a
    number, an array, and an object whose emotion is an object with a
    [toString] member. *)
Definition bare_number : Throws GenerateContentResponse :=
  Ok {| text := Some "7" |}.

Definition array_response : Throws GenerateContentResponse :=
  Ok {| text := Some "[1]" |}.

Definition unprintable_emotion : Throws GenerateContentResponse :=
  Ok {| text := Some ("{" ++ quoted "emotion" ++ ":{" ++ quoted "toString" ++ ":1}}") |}.

(** The full response between a no-break space, a line feed and a tab. *)
Definition padded : Throws GenerateContentResponse :=
  Ok {| text := Some (bytes [194; 160; 10]%N ++ full_text "SAD" "Chin up" ++ bytes [9]%N) |}.

(** A full response whose encouraging message is a number, and one
    without an encouraging message. *)
Definition number_message : Throws GenerateContentResponse :=
  Ok {| text := Some ("{" ++ member "emotion" "HAPPY"
                          ++ "," ++ quoted "encouragingMessage" ++ ":1.50e1}") |}.

Definition no_message : Throws GenerateContentResponse :=
  Ok {| text := Some ("{" ++ member "emotion" "HAPPY" ++ "}") |}.

(** The remote call rejected. *)
Definition offline : Throws GenerateContentResponse :=
  Throw (NetworkError "Failed to fetch").

(** The camera refused. *)
Definition not_allowed : Error := MkError "Permission denied".

Definition client (remote : Throws GenerateContentResponse) : GoogleGenAI :=
  {| generateContent := fun _ => remote |}.

Definition analyze (remote : Throws GenerateContentResponse) : Eff Value :=
  analyzeImage (H := builtins) (client remote) (Some "AAAA").

(** What a response text parses to ([undefined] if it does not). *)
Definition parsed (t : string) : Value :=
  match parse (trim t) with
  | Ok p => p
  | Throw _ => JUndefined
  end.

(** The value a call returned ([undefined] if it threw). *)
Definition returned (m : Eff Value) : Value :=
  match outcome m with
  | Ok v => v
  | Throw _ => JUndefined
  end.

Definition chrome : Browser := {| speechSynthesis := true; mediaDevices := true |}.

(** A mounted video and canvas, and the frame the canvas encodes. *)
Definition frame : Dom :=
  {| videoRef := Some {| videoWidth := 1280; videoHeight := 720 |};
     canvasRef := Some {| context2d := true;
                          dataURL := "data:image/jpeg;base64,AAAA" |} |}.

(** The callback of a render in which nothing loads and nothing was
    spoken yet. *)
Definition idle_callback : Callback :=
  {| cb_isLoading := false;
     cb_lastSpokenMessage := JStr EmptyString;
     cb_speech := {| voices := []; speaking := false |} |}.

(** The state the events lead to from the mount. *)
Definition after (evs : list Event) : App :=
  match run (H := builtins) (mounted chrome) evs with
  | Some a => a
  | None => mounted chrome
  end.

Definition mk_voice (n l : string) : SpeechSynthesisVoice :=
  {| name := n; lang := l; voiceURI := n |}.

Definition installed : list SpeechSynthesisVoice :=
  [mk_voice "Thomas" "fr-FR"; mk_voice "Daniel" "en-GB"; mk_voice "Samantha" "en-US";
   mk_voice "Google UK English Female" "en-GB"; mk_voice "Google US English" "en-US"].

End Sample.

(** ** Statements the code is checked against *)

Section Statements.
Context `{Builtins}.

(** The states the component can be in: those the events lead to from a
    mount that succeeded. *)
Definition reachable (a : App) : Prop :=
  ∃ b a0 evs, mount b = Ok a0 ∧ run a0 evs = Some a.

(** Every call returns a value of the shape [AnalysisResult] declares, or
    throws the classified error. *)
Definition returns_typed_or_classified : Prop :=
  ∀ ai img,
    (∃ v, outcome (analyzeImage ai img) = Ok v ∧ is_AnalysisResult v = true)
    ∨ outcome (analyzeImage ai img) = Throw (MkError analysis_failed).

(** When the awaited call throws, nothing but the error and [isAnalyzing]
    changes in the component state. *)
Definition failure_changes_error_and_isAnalyzing_only : Prop :=
  ∀ a i img cb remote now err a',
    inflight a !! i = Some (img, cb) →
    outcome (analyzeImage {| generateContent := fun _ => remote |} img) = Throw err →
    step a (Settled i remote now) = Some a' →
    isLoading (ui a') = isLoading (ui a)
    ∧ analysisResult (ui a') = analysisResult (ui a)
    ∧ lastSpokenMessage (ui a') = lastSpokenMessage (ui a)
    ∧ surpriseKey (ui a') = surpriseKey (ui a).

(** Every value returned has all four fields. *)
Definition every_result_is_complete : Prop :=
  ∀ ai img v, outcome (analyzeImage ai img) = Ok v →
              ∀ f, hasOwn v f = true.

(** While analysis runs, every tick takes a snapshot. *)
Definition every_tick_snapshots : Prop :=
  ∀ a id dom a',
    reachable a → isAnalyzing (ui a) = true →
    step a (Tick id dom) = Some a' →
    snapshots (new_calls a a') ≠ [].

End Statements.

(** ** Counting the calls of the capture loop *)

Definition is_drawImage (c : Call) : bool :=
  match c with
  | drawImage _ _ => true
  | _ => false
  end.

Definition is_toDataURL (c : Call) : bool :=
  match c with
  | toDataURL _ _ => true
  | _ => false
  end.

Definition is_generateContent (c : Call) : bool :=
  match c with
  | call_generateContent _ => true
  | _ => false
  end.

Definition is_stop_tracks (c : Call) : bool :=
  match c with
  | stop_tracks _ => true
  | _ => false
  end.

Definition count_calls (p : Call -> bool) (a : App) : nat :=
  length (List.filter p (calls a)).

Definition is_warning (c : ConsoleEntry) : bool :=
  match c with
  | console_warn _ _ _ => true
  | console_error _ _ => false
  end.

(** The value the state holds as last spoken message is one for which
    [speak] returns at its guard, or the one whose text was handed to the
    synthesizer last. *)
Definition last_spoken_agrees (a : App) : Prop :=
  truthy (lastSpokenMessage (ui a)) = false
  ∨ ∃ text, toString (lastSpokenMessage (ui a)) = Ok text
            ∧ last (spoken a) = Some text.

(** Every frame drawn was encoded and sent, and the calls awaited are among
    the ones sent. *)
Definition snapshots_are_sent (a : App) : Prop :=
  count_calls is_drawImage a = count_calls is_toDataURL a
  ∧ count_calls is_toDataURL a = count_calls is_generateContent a
  ∧ (length (inflight a) <= count_calls is_generateContent a)%nat.

(** ** More inputs for running the embedding *)

Module Scenario.

(** Analysis started, and one tick sent a frame that is still awaited. *)
Definition awaiting : App := Sample.after [ClickStart; Tick 1 Sample.frame].

(** Analysis started and the camera granted. *)
Definition streaming : App := Sample.after [ClickStart; CameraGranted].

(** A first result was spoken and a second frame is awaited. *)
Definition second_tick : App :=
  Sample.after [ClickStart; Tick 1 Sample.frame;
                Settled 0 (Sample.full "HAPPY" "Keep going!") 1000;
                Tick 1 Sample.frame].

Definition surprised : AnalysisResult :=
  {| emotion := SURPRISED;
     environmentAnalysis := JStr "Bright room, tidy desk";
     encouragingMessage := JStr "What a day!";
     productivityTip := JStr "Take a short break" |}.

(** One tick brought a number for a message, and one brought none. *)
Definition number_spoken : App :=
  Sample.after [ClickStart; Tick 1 Sample.frame; Settled 0 Sample.number_message 1000].

Definition nothing_spoken : App :=
  Sample.after [ClickStart; Tick 1 Sample.frame; Settled 0 Sample.no_message 1000].

(** Analysis started, the camera was granted, and analysis stopped with a
    second request for the camera still open. *)
Definition camera_pending : App :=
  Sample.after [ClickStart; CameraGranted; ClickStop; ClickStart; ClickStop].

End Scenario.

(** * Properties *)

(** ** Strings and lists *)

Lemma append_cons (c : ascii) (a b : string) : String c a ++ b = String c (a ++ b).
Proof. reflexivity. Qed.

Lemma append_nil (b : string) : EmptyString ++ b = b.
Proof. reflexivity. Qed.

Lemma prefix_starts_with (p s : string) :
  String.prefix p s = true ↔ starts_with p s.
Proof.
  unfold starts_with. revert s.
  induction p as [|c p IH]; intros s.
  - split; [intros _; by exists s | by destruct s].
  - destruct s as [|d s]; cbn [String.prefix].
    + split; [done | intros [r Hr]; rewrite append_cons in Hr; discriminate].
    + destruct (ascii_dec c d) as [->|Hne].
      * rewrite IH. split; intros [r Hr]; exists r; rewrite append_cons in *; congruence.
      * split; [done | intros [r Hr]; rewrite append_cons in Hr; congruence].
Qed.

Lemma String_includes_contains (needle hay : string) :
  String_includes needle hay = true ↔ contains needle hay.
Proof.
  unfold contains.
  induction hay as [|c hay IH].
  - cbn [String_includes]. rewrite orb_false_r, prefix_starts_with.
    split.
    + intros [r Hr]. by exists EmptyString, r.
    + intros [a [b Hab]]. destruct a; [by exists b | rewrite append_cons in Hab; discriminate].
  - cbn [String_includes]. rewrite orb_true_iff, IH, prefix_starts_with.
    split.
    + intros [[r Hr] | [a [b Hab]]].
      * by exists EmptyString, r.
      * exists (String c a), b. rewrite append_cons. by rewrite Hab.
    + intros [a [b Hab]]. destruct a as [|d a].
      * left. by exists b.
      * right. exists a, b. rewrite append_cons in Hab. congruence.
Qed.

Lemma find_first {A} (P : A -> bool) (l : list A) :
  match find P l with
  | Some x => ∃ l1 l2, l = (l1 ++ x :: l2)%list ∧ P x = true
                       ∧ ∀ y, In y l1 → P y = false
  | None => ∀ y, In y l → P y = false
  end.
Proof.
  induction l as [|a l IH]; simpl.
  - by intros y [].
  - destruct (P a) eqn:Ha.
    + exists [], l. repeat split; [done | by intros y []].
    + destruct (find P l) as [x|].
      * destruct IH as (l1 & l2 & -> & Hx & Hl1).
        exists (a :: l1), l2. repeat split; [done |].
        intros y [<- | Hy]; [done | by apply Hl1].
      * intros y [<- | Hy]; [done | by apply IH].
Qed.

Lemma google_english_decide (v : SpeechSynthesisVoice) :
  String_includes "Google" (name v) && String_startsWith "en" (lang v) = true
  ↔ google_english v.
Proof.
  unfold google_english, String_startsWith.
  by rewrite andb_true_iff, String_includes_contains, prefix_starts_with.
Qed.

Lemma not_true_iff (b : bool) (P : Prop) : (b = true ↔ P) → b = false → ¬ P.
Proof. intros HP Hb HPv. apply HP in HPv. congruence. Qed.

(** ** The speech hook *)

Lemma preferredVoice_best (available : list SpeechSynthesisVoice) :
  best_voice available (preferredVoice available).
Proof.
  unfold preferredVoice.
  pose proof (find_first
    (fun voice => String_includes "Google" (name voice)
                  && String_startsWith "en" (lang voice)) available) as H1.
  pose proof (find_first
    (fun voice => String_startsWith "en-US" (lang voice)) available) as H2.
  pose proof (find_first
    (fun voice => String_startsWith "en" (lang voice)) available) as H3.
  destruct (find _ available) as [v1|]; simpl.
  { destruct H1 as (l1 & l2 & -> & Hv & Hl). apply best_google.
    exists l1, l2. split; [done|]. split; [by apply google_english_decide|].
    intros w Hw. eapply not_true_iff; [apply google_english_decide | by apply Hl]. }
  assert (none_with google_english available) as N1.
  { intros w Hw. eapply not_true_iff; [apply google_english_decide | by apply H1]. }
  destruct (find _ available) as [v2|]; simpl.
  { destruct H2 as (l1 & l2 & -> & Hv & Hl). apply best_us; [done|].
    exists l1, l2. split; [done|]. split; [by apply prefix_starts_with|].
    intros w Hw. eapply not_true_iff; [apply prefix_starts_with | by apply Hl]. }
  assert (none_with us_english available) as N2.
  { intros w Hw. eapply not_true_iff; [apply prefix_starts_with | by apply H2]. }
  destruct (find _ available) as [v3|]; simpl.
  { destruct H3 as (l1 & l2 & -> & Hv & Hl). apply best_english; [done..|].
    exists l1, l2. split; [done|]. split; [by apply prefix_starts_with|].
    intros w Hw. eapply not_true_iff; [apply prefix_starts_with | by apply Hl]. }
  apply best_default.
  intros w Hw. eapply not_true_iff; [apply prefix_starts_with | by apply H3].
Qed.

Lemma first_with_unique (P : SpeechSynthesisVoice -> Prop)
    (available : list SpeechSynthesisVoice) (v w : SpeechSynthesisVoice) :
  first_with P available v → first_with P available w → v = w.
Proof.
  intros (b1 & a1 & -> & Pv & N1) (b2 & a2 & E & Pw & N2).
  revert b2 E N2. induction b1 as [|x b1 IH]; intros [|y b2] E N2;
    simpl in E; injection E as E1 E2.
  - done.
  - subst y. exfalso. apply (N2 v); [by left | done].
  - subst x. exfalso. apply (N1 w); [by left | done].
  - subst y. apply (IH (fun z Hz => N1 z (or_intror Hz)) b2 E2).
    intros z Hz. apply N2. by right.
Qed.

Lemma first_with_not_none (P : SpeechSynthesisVoice -> Prop)
    (available : list SpeechSynthesisVoice) (v : SpeechSynthesisVoice) :
  first_with P available v → none_with P available → False.
Proof.
  intros (b & a & -> & Pv & _) Hnone. apply (Hnone v); [|done].
  apply in_or_app. right. by left.
Qed.

Lemma first_with_weaken (P Q : SpeechSynthesisVoice -> Prop)
    (available : list SpeechSynthesisVoice) (v : SpeechSynthesisVoice) :
  (∀ w, P w → Q w) → first_with P available v → none_with Q available → False.
Proof.
  intros HPQ (b & a & -> & Pv & _) Hnone. apply (Hnone v); [|by apply HPQ].
  apply in_or_app. right. by left.
Qed.

Lemma google_english_english (v : SpeechSynthesisVoice) : google_english v → english v.
Proof. by intros [_ ?]. Qed.

Lemma us_english_english (v : SpeechSynthesisVoice) : us_english v → english v.
Proof. intros [r Hr]. exists ("-US" ++ r). by rewrite Hr. Qed.

(** The description determines the voice. *)
Lemma best_voice_unique (available : list SpeechSynthesisVoice)
    (o1 o2 : option SpeechSynthesisVoice) :
  best_voice available o1 → best_voice available o2 → o1 = o2.
Proof.
  intros H1 H2.
  destruct H1 as [v Hv | v Ng Hv | v Ng Nu Hv | Ne];
    destruct H2 as [w Hw | w Ng' Hw | w Ng' Nu' Hw | Ne'];
    try reflexivity;
    try (f_equal; by eapply first_with_unique);
    exfalso;
    solve
      [ eauto using first_with_not_none
      | eapply (first_with_weaken google_english english);
        [apply google_english_english | eassumption | eassumption]
      | eapply (first_with_weaken us_english english);
        [apply us_english_english | eassumption | eassumption] ].
Qed.

(** On a string, [speak_value] is [speak]: the guard is the same, and the
    conversion gives the string back. *)
Lemma speak_value_string (speechSynthesis : bool) (h : SpeechState) (text : string) :
  speak_value speechSynthesis h (JStr text) = (speak speechSynthesis h text, None).
Proof.
  unfold speak_value, speak. cbn [truthy toString].
  destruct text as [|c text]; [reflexivity|]. cbn [String.eqb is_empty negb orb].
  by destruct speechSynthesis.
Qed.

(** What [speak_value] hands over: nothing for a value the guard stops and
    where the conversion throws, and otherwise one utterance, the last call,
    with the converted text. *)
Lemma speak_value_spoken (speechSynthesis : bool) (h : SpeechState) (text : Value) :
  omap (fun c => match c with
                 | synth_speak u => Some (u_text u)
                 | synth_cancel => None
                 end) (speak_value speechSynthesis h text).1
  = if truthy text && speechSynthesis
    then match toString text with
         | Ok s => [s]
         | Throw _ => []
         end
    else [].
Proof.
  unfold speak_value.
  destruct (truthy text), speechSynthesis; cbn [negb orb andb]; try reflexivity.
  destruct (toString text) as [s|e]; destruct (speaking h); reflexivity.
Qed.

Lemma speak_value_thrown (speechSynthesis : bool) (h : SpeechState) (text : Value)
    (err : Error) :
  (speak_value speechSynthesis h text).2 = Some err ↔
  truthy text = true ∧ speechSynthesis = true ∧ toString text = Throw err.
Proof.
  unfold speak_value.
  destruct (truthy text), speechSynthesis; cbn [negb orb snd];
    try (split; [discriminate | intros (? & ? & ?); discriminate]).
  destruct (toString text) as [s|e]; cbn [snd].
  - split; [discriminate | intros (_ & _ & ?); discriminate].
  - split; [intros [= ->]; done | intros (_ & _ & [= ->]); done].
Qed.

(** C7. For every list of available voices, the voice [speak] gives the
    utterance is the first voice whose name contains Google and whose
    language starts with en; if there is none, the first whose language
    starts with en-US; if there is none, the first whose language starts
    with en; and if there is none, no voice is assigned, so the default of
    the synthesizer is used. The description leaves no other choice. *)
Theorem speak_prefers_best_voice (h : SpeechState) (text : string) :
  (∀ o, best_voice (voices h) o ↔ o = preferredVoice (voices h))
  ∧ (is_empty text = false →
     ∃ u, last (speak true h text) = Some (synth_speak u)
          ∧ u_text u = text
          ∧ best_voice (voices h) (voice u)).
Proof.
  split.
  - intros o. split.
    + intros Ho. eapply best_voice_unique; [exact Ho | apply preferredVoice_best].
    + intros ->. apply preferredVoice_best.
  - intros Hne. unfold speak. rewrite Hne. simpl.
    eexists. split.
    + destruct (speaking h); reflexivity.
    + split; [done | apply preferredVoice_best].
Qed.

(** C10. [speak] with the empty string does nothing: it makes no call on the
    synthesizer, whatever the hook state, so speech that is going on is not
    cancelled and no utterance exists whose handlers could change the
    speaking flag. A [cancel] or a [speak] on the synthesizer is made for a
    text that is not empty only. *)
Theorem speak_empty_noop (speechSynthesis : bool) (h : SpeechState) :
  speak speechSynthesis h EmptyString = []
  ∧ ∀ text c, In c (speak speechSynthesis h text) →
              is_empty text = false ∧ speechSynthesis = true
              ∧ (c = synth_cancel → speaking h = true).
Proof.
  split; [reflexivity|].
  intros text c. unfold speak.
  destruct (is_empty text); [by intros []|].
  destruct speechSynthesis; [|by intros []]. cbn [negb orb].
  destruct (speaking h).
  - intros _. by repeat split.
  - intros [<- | []]. by repeat split.
Qed.

(** ** The analysis client *)

Lemma Emotion_members_all (e : Emotion) : In e Emotion_members.
Proof. destruct e; simpl; tauto. Qed.

Lemma includes_emotionValues (v : Value) :
  includes emotionValues v = true ↔ ∃ e, v = JStr (Emotion_value e).
Proof.
  split.
  - destruct v; cbn [includes]; try discriminate.
    intros Hs. apply existsb_exists in Hs as (x & Hx & Hsx).
    apply String.eqb_eq in Hsx as <-.
    unfold emotionValues in Hx. apply in_map_iff in Hx as (e & <- & _).
    by exists e.
  - intros [e ->]. cbn [includes]. apply existsb_exists.
    exists (Emotion_value e). split; [| apply String.eqb_refl].
    apply in_map, Emotion_members_all.
Qed.

(** [toString] throws exactly where [toString_throws] says, and what it
    throws is the one [TypeError]. *)
Ltac join_rest rest Hrest :=
  match type of Hrest with
  | match ?t with Ok _ => _ | Throw _ => _ end => destruct t
  end;
  destruct rest; cbn [existsb orb] in *;
  first [ done
        | by rewrite Hrest
        | match type of Hrest with _ ∧ _ => by destruct Hrest as [-> ->] end ].

Lemma toString_throws_spec (v : Value) :
  match toString v with
  | Ok _ => toString_throws v = false
  | Throw e => toString_throws v = true
               ∧ e = TypeError "Cannot convert object to primitive value"
  end.
Proof.
  revert v. fix IH 1. intros v.
  destruct v as [| |[|]| | |elems own|own]; try (simpl; done).
  - cbn [toString toString_throws].
    destruct (bool_decide (is_Some (own !! "toString"))); [done|].
    destruct (bool_decide (is_Some (own !! "join"))); [done|].
    revert elems. fix IHl 1. intros [|x rest]; [done|].
    cbn [existsb].
    pose proof (IH x) as Hx. pose proof (IHl rest) as Hrest.
    destruct x as [| |[|]| | |elems' own'|own'];
      try (cbn [toString_throws orb]; join_rest rest Hrest).
    + destruct (toString (JArr elems' own')) as [s|e].
      * rewrite Hx. join_rest rest Hrest.
      * by destruct Hx as [-> ->].
    + destruct (toString (JObj own')) as [s|e].
      * rewrite Hx. join_rest rest Hrest.
      * by destruct Hx as [-> ->].
  - simpl. by destruct (bool_decide (is_Some (own !! "toString"))).
Qed.

Lemma toString_throws_true (v : Value) :
  toString_throws v = true →
  toString v = Throw (TypeError "Cannot convert object to primitive value").
Proof.
  intros Ht. pose proof (toString_throws_spec v) as Hs.
  destruct (toString v) as [s|e]; [congruence | by destruct Hs as [_ ->]].
Qed.

Lemma toString_throws_false (v : Value) :
  toString_throws v = false → ∃ s, toString v = Ok s.
Proof.
  intros Ht. pose proof (toString_throws_spec v) as Hs.
  destruct (toString v) as [s|e]; [by exists s | destruct Hs; congruence].
Qed.

Lemma key_injective (f g : Field) : key f = key g → f = g.
Proof. destruct f, g; simpl; intros E; try reflexivity; discriminate E. Qed.

Lemma get_known_hasOwn (p : Value) (f : Field) (s : string) :
  get p f = Ok (JStr s) → hasOwn p f = true.
Proof.
  destruct p; simpl; try discriminate;
    destruct (own !! key f) eqn:E; simpl; intros [= ?]; done.
Qed.

Lemma set_get (p v x : Value) (f : Field) :
  set p f x = Ok v →
  get v f = Ok x ∧ hasOwn v f = true
  ∧ ∀ g, g ≠ f → get v g = get p g ∧ hasOwn v g = hasOwn p g.
Proof.
  destruct p; simpl; try discriminate; intros [= <-]; simpl;
    rewrite lookup_insert_eq; simpl;
    (split; [done|]); (split; [done|]);
    intros g Hg; rewrite lookup_insert_ne; try done;
    intros E; apply key_injective in E; congruence.
Qed.

Lemma Emotion_of_string_value (e : Emotion) :
  Emotion_of_string (Emotion_value e) = Some e.
Proof. by destruct e. Qed.

Lemma Emotion_of_string_Some (s : string) (e : Emotion) :
  Emotion_of_string s = Some e → s = Emotion_value e.
Proof.
  unfold Emotion_of_string. intros Hfind.
  apply find_some in Hfind as [_ Heq]. by apply String.eqb_eq in Heq.
Qed.

(** A value of the declared shape has a label as its emotion. *)
Lemma is_AnalysisResult_emotion (v : Value) :
  is_AnalysisResult v = true → ∃ e, get v Key.emotion = Ok (JStr (Emotion_value e)).
Proof.
  destruct v as [| | | | |elems own|own]; try discriminate.
  cbn [is_AnalysisResult]. rewrite !andb_true_iff.
  intros [[[He _] _] _]. apply bool_decide_eq_true in He as [e He].
  unfold field in He. cbn [get] in He |- *.
  destruct (default JUndefined (own !! key Key.emotion)) as [| | | |s| |];
    try discriminate He.
  cbn [Emotion_of_value] in He. apply Emotion_of_string_Some in He as ->.
  by exists e.
Qed.

(** The cast is defined on every object and array whose emotion is a
    label. *)
Lemma asAnalysisResult_label (v : Value) (e : Emotion) :
  get v Key.emotion = Ok (JStr (Emotion_value e)) →
  asAnalysisResult v
  = Some {| emotion := e;
            environmentAnalysis := field v Key.environmentAnalysis;
            encouragingMessage := field v Key.encouragingMessage;
            productivityTip := field v Key.productivityTip |}.
Proof.
  intros Hget.
  destruct v as [| | | | |elems own|own]; try discriminate Hget;
    unfold asAnalysisResult, field; rewrite Hget; cbn [Emotion_of_value];
    by rewrite Emotion_of_string_value.
Qed.

Section AnalysisClientFacts.
Context `{Builtins}.

Lemma validate_emotion_outcome (p : Value) :
  outcome (validate_emotion p) =
  match get p Key.emotion with
  | Throw e => Throw e
  | Ok x =>
      if includes emotionValues x then Ok p
      else if toString_throws x
           then Throw (TypeError "Cannot convert object to primitive value")
           else set p Key.emotion (JStr (Emotion_value NEUTRAL))
  end.
Proof.
  unfold validate_emotion, outcome, lift, bind.
  destruct (get p Key.emotion) as [x|e]; [|reflexivity].
  destruct (includes emotionValues x); [reflexivity|].
  destruct (toString_throws x); [reflexivity|]. simpl.
  by destruct (set p Key.emotion _).
Qed.

Lemma analyzeImage_try_outcome (ai : GoogleGenAI) (img : option string) :
  outcome (analyzeImage_try ai img) =
  match generateContent ai (request img) with
  | Throw e => Throw e
  | Ok response =>
      match text response with
      | None => Throw (TypeError "Cannot read properties of undefined (reading 'trim')")
      | Some t =>
          match JSON_parse (String_trim t) with
          | Throw e => Throw e
          | Ok p => outcome (validate_emotion p)
          end
      end
  end.
Proof.
  unfold analyzeImage_try, trimmed_text, outcome, lift, bind.
  destruct (generateContent ai (request img)) as [response|e]; [|reflexivity].
  destruct (text response) as [t|]; [|reflexivity].
  destruct (JSON_parse (String_trim t)) as [p|e]; [|reflexivity].
  by destruct (validate_emotion p).
Qed.

Lemma analyzeImage_outcome (ai : GoogleGenAI) (img : option string) :
  outcome (analyzeImage ai img) =
  match outcome (analyzeImage_try ai img) with
  | Ok v => Ok v
  | Throw _ => Throw (MkError analysis_failed)
  end.
Proof.
  unfold analyzeImage, try_catch, outcome.
  by destruct (analyzeImage_try ai img) as [out [v|e]].
Qed.

(** What a successful call went through. *)
Lemma analyzeImage_Ok_inv (ai : GoogleGenAI) (img : option string) (v : Value) :
  outcome (analyzeImage ai img) = Ok v →
  ∃ response t p x,
    generateContent ai (request img) = Ok response
    ∧ text response = Some t
    ∧ JSON_parse (String_trim t) = Ok p
    ∧ get p Key.emotion = Ok x
    ∧ (if includes emotionValues x then v = p
       else toString_throws x = false
            ∧ set p Key.emotion (JStr (Emotion_value NEUTRAL)) = Ok v).
Proof.
  rewrite analyzeImage_outcome, analyzeImage_try_outcome.
  destruct (generateContent ai (request img)) as [response|] eqn:Hg; [|discriminate].
  destruct (text response) as [t|] eqn:Ht; [|discriminate].
  destruct (JSON_parse (String_trim t)) as [p|] eqn:Hp; [|discriminate].
  rewrite validate_emotion_outcome.
  destruct (get p Key.emotion) as [x|] eqn:Hx; [|discriminate].
  destruct (includes emotionValues x) eqn:Hin.
  - intros [= <-]. exists response, t, p, x. rewrite Hin. by repeat split.
  - destruct (toString_throws x) eqn:Hts; [discriminate|].
    destruct (set p Key.emotion _) as [v'|] eqn:Hset; [|discriminate].
    intros [= <-]. exists response, t, p, x. rewrite Hin. by repeat split.
Qed.

Lemma analyzeImage_Ok_emotion (ai : GoogleGenAI) (img : option string) (v : Value) :
  outcome (analyzeImage ai img) = Ok v →
  ∃ e, get v Key.emotion = Ok (JStr (Emotion_value e)).
Proof.
  intros Hv.
  destruct (analyzeImage_Ok_inv _ _ _ Hv) as (response & t & p & x & _ & _ & _ & Hx & Hcase).
  destruct (includes emotionValues x) eqn:Hin.
  - subst v. apply includes_emotionValues in Hin as [e ->]. by exists e.
  - destruct Hcase as [_ Hset]. exists NEUTRAL. by apply set_get in Hset as [? _].
Qed.

(** Whatever [analyzeImage] returns, the component can hold: the cast is
    defined on it. *)
Lemma analyzeImage_result_is_held (ai : GoogleGenAI) (img : option string) (v : Value) :
  outcome (analyzeImage ai img) = Ok v →
  ∃ r, asAnalysisResult v = Some r
       ∧ get v Key.emotion = Ok (JStr (Emotion_value (emotion r)))
       ∧ environmentAnalysis r = field v Key.environmentAnalysis
       ∧ encouragingMessage r = field v Key.encouragingMessage
       ∧ productivityTip r = field v Key.productivityTip.
Proof.
  intros Hv. destruct (analyzeImage_Ok_emotion _ _ _ Hv) as [e He].
  eexists. split; [by apply asAnalysisResult_label|]. done.
Qed.

(** The call fails with the fixed message, whatever was thrown inside. *)
Lemma analyzeImage_classifies (ai : GoogleGenAI) (img : option string) (err : Error) :
  outcome (analyzeImage ai img) = Throw err → err = MkError analysis_failed.
Proof.
  rewrite analyzeImage_outcome.
  destruct (outcome (analyzeImage_try ai img)); congruence.
Qed.

(** An unknown emotion on a parsed object is replaced by [NEUTRAL], unless
    writing the warning throws. *)
Lemma unknown_emotion_defaults (ai : GoogleGenAI) (img : option string)
    (response : GenerateContentResponse) (t : string)
    (own : gmap string Value) (x : Value) :
  generateContent ai (request img) = Ok response →
  text response = Some t →
  JSON_parse (String_trim t) = Ok (JObj own) →
  get (JObj own) Key.emotion = Ok x →
  includes emotionValues x = false →
  toString_throws x = false →
  analyzeImage ai img
  = ([console_warn "Received unknown emotion: " x ". Defaulting to NEUTRAL."],
     Ok (JObj (<["emotion" := JStr "NEUTRAL"]> own))).
Proof.
  intros Hg Ht Hp Hx Hin Hts.
  unfold analyzeImage, analyzeImage_try, trimmed_text, validate_emotion.
  rewrite Hg. cbn [lift bind]. rewrite Ht. cbn [lift bind]. rewrite Hp.
  cbn [lift bind]. rewrite Hx. cbn [lift bind]. rewrite Hin, Hts. reflexivity.
Qed.

(** C1, as the code has it. Every call of [analyzeImage] either returns a
    value whose emotion field is a member of the enum, or throws the error
    with the one fixed message; no other error leaves it. A rejected remote
    call and a response text that does not parse both end in that error,
    and the error caught goes to the console only. The value returned is
    the parsed response, as it is or with NEUTRAL written over its emotion;
    a response that has the shape of [AnalysisResult] is returned as it
    is. *)
Theorem analyzeImage_returns_or_classifies (ai : GoogleGenAI) (img : option string) :
  ((∃ v e, outcome (analyzeImage ai img) = Ok v
           ∧ get v Key.emotion = Ok (JStr (Emotion_value e)))
   ∨ outcome (analyzeImage ai img) = Throw (MkError analysis_failed))
  ∧ (∀ err, outcome (analyzeImage ai img) = Throw err →
            err = MkError analysis_failed)
  ∧ (∀ err, generateContent ai (request img) = Throw err →
            analyzeImage ai img
            = ([console_error "Error analyzing image with Gemini API:" err],
               Throw (MkError analysis_failed)))
  ∧ (∀ response t err,
       generateContent ai (request img) = Ok response →
       text response = Some t →
       JSON_parse (String_trim t) = Throw err →
       analyzeImage ai img
       = ([console_error "Error analyzing image with Gemini API:" err],
          Throw (MkError analysis_failed)))
  ∧ (∀ v, outcome (analyzeImage ai img) = Ok v →
          ∃ response t p,
            generateContent ai (request img) = Ok response
            ∧ text response = Some t
            ∧ JSON_parse (String_trim t) = Ok p
            ∧ (v = p ∨ set p Key.emotion (JStr "NEUTRAL") = Ok v))
  ∧ (∀ response t p,
       generateContent ai (request img) = Ok response →
       text response = Some t →
       JSON_parse (String_trim t) = Ok p →
       is_AnalysisResult p = true →
       analyzeImage ai img = ([], Ok p)).
Proof.
  split; [|split; [|split; [|split; [|split]]]]; cycle 4.
  { intros v Hv.
    destruct (analyzeImage_Ok_inv _ _ _ Hv)
      as (response & t & p & x & Hg & Ht & Hp & _ & Hcase).
    exists response, t, p. repeat (split; [done|]).
    destruct (includes emotionValues x); [by left | right; apply Hcase]. }
  { intros response t p Hg Ht Hp Hshape.
    apply is_AnalysisResult_emotion in Hshape as [e He].
    unfold analyzeImage, analyzeImage_try, trimmed_text, validate_emotion.
    rewrite Hg. cbn [lift bind]. rewrite Ht. cbn [lift bind]. rewrite Hp.
    cbn [lift bind]. rewrite He. cbn [lift bind].
    assert (includes emotionValues (JStr (Emotion_value e)) = true) as ->
      by (apply includes_emotionValues; by exists e).
    reflexivity. }
  - destruct (outcome (analyzeImage ai img)) as [v|err] eqn:Hout.
    + left. destruct (analyzeImage_Ok_emotion _ _ _ Hout) as [e He]. eauto.
    + right. by rewrite (analyzeImage_classifies _ _ _ Hout).
  - apply analyzeImage_classifies.
  - intros err Hg. unfold analyzeImage, analyzeImage_try. by rewrite Hg.
  - intros response t err Hg Ht Hp.
    unfold analyzeImage, analyzeImage_try, trimmed_text.
    rewrite Hg. cbn [lift bind]. rewrite Ht. cbn [lift bind]. by rewrite Hp.
Qed.

(** C2. The emotion field of every value [analyzeImage] returns is one of
    the eight labels; where the parsed response carried anything else
    there, the value returned is the parsed one with the field
    overwritten by NEUTRAL. *)
Theorem analyzeImage_emotion_is_a_label (ai : GoogleGenAI) (img : option string)
    (v : Value) :
  outcome (analyzeImage ai img) = Ok v →
  (∃ s, get v Key.emotion = Ok (JStr s)
        ∧ In s ["HAPPY"; "SAD"; "STRESSED"; "FOCUSED"; "TIRED"; "NEUTRAL";
                "SURPRISED"; "ANGRY"])
  ∧ ∃ response t p x,
      generateContent ai (request img) = Ok response
      ∧ text response = Some t
      ∧ JSON_parse (String_trim t) = Ok p
      ∧ get p Key.emotion = Ok x
      ∧ (includes emotionValues x = false →
         set p Key.emotion (JStr "NEUTRAL") = Ok v
         ∧ get v Key.emotion = Ok (JStr "NEUTRAL")).
Proof.
  intros Hv. split.
  - destruct (analyzeImage_Ok_emotion _ _ _ Hv) as [e He].
    exists (Emotion_value e). split; [done|].
    change (In (Emotion_value e) (map Emotion_value Emotion_members)).
    apply in_map, Emotion_members_all.
  - destruct (analyzeImage_Ok_inv _ _ _ Hv) as (response & t & p & x & Hg & Ht & Hp & Hx & Hcase).
    exists response, t, p, x. repeat (split; [done|]).
    intros Hin. rewrite Hin in Hcase. destruct Hcase as [_ Hset].
    split; [done|]. by apply set_get in Hset as [? _].
Qed.

(** C6, as the code has it. Every request carries the schema that lists
    the four fields as required, and a value [analyzeImage] returns always
    has the emotion field; the three other fields are not checked: each is
    in the value returned exactly when the parsed response has it, with
    the value it has there. *)
Theorem analyzeImage_checks_emotion_only (ai : GoogleGenAI) (img : option string)
    (v : Value) :
  outcome (analyzeImage ai img) = Ok v →
  s_required (responseSchema (request img))
  = [Key.emotion; Key.environmentAnalysis; Key.encouragingMessage; Key.productivityTip]
  ∧ hasOwn v Key.emotion = true
  ∧ ∃ response t p,
      generateContent ai (request img) = Ok response
      ∧ text response = Some t
      ∧ JSON_parse (String_trim t) = Ok p
      ∧ ∀ f, f ≠ Key.emotion → hasOwn v f = hasOwn p f ∧ get v f = get p f.
Proof.
  intros Hv. split; [reflexivity|].
  destruct (analyzeImage_Ok_inv _ _ _ Hv) as (response & t & p & x & Hg & Ht & Hp & Hx & Hcase).
  destruct (includes emotionValues x) eqn:Hin.
  - subst v. apply includes_emotionValues in Hin as [e ->]. split.
    + by eapply get_known_hasOwn.
    + exists response, t, p. by repeat (split; [done|]).
  - destruct Hcase as [_ Hset]. apply set_get in Hset as (_ & Hown & Hother).
    split; [done|]. exists response, t, p. repeat (split; [done|]).
    intros f Hf. by destruct (Hother f Hf).
Qed.

End AnalysisClientFacts.

(** ** The theme *)

Lemma currentEmotion_shown (u : UiState) :
  currentEmotion u = Emotion_value (shown_emotion u).
Proof.
  unfold currentEmotion, shown_emotion.
  destruct (analysisResult u) as [r|]; [|reflexivity].
  by destruct (emotion r).
Qed.

(** C8. The theme is a total function of the component state: each of the
    eight emotions has its gradient, icon and title in [emotionConfig] and
    its border in [emotionVisualEffects], so the render never reads a
    missing entry; without a result the NEUTRAL entry is used; the border
    and the filter of the emotion are used only while analysis runs and a
    result is there, and otherwise the NEUTRAL border and the empty filter. *)
Theorem theme_total :
  (∀ e : Emotion, ∃ cfg border,
     emotionConfig !! Emotion_value e = Some cfg
     ∧ emotionVisualEffects !! Emotion_value e = Some border)
  ∧ (∀ u, ∃ t cfg,
       theme u = Ok t
       ∧ emotionConfig !! Emotion_value (shown_emotion u) = Some cfg
       ∧ th_gradient t = gradient cfg ∧ th_icon t = icon cfg ∧ th_title t = title cfg
       ∧ (analysisResult u = None →
          emotionConfig !! Emotion_value NEUTRAL = Some cfg
          ∧ title cfg = "Calm & Collected")
       ∧ (if isAnalyzing u && bool_decide (is_Some (analysisResult u))
          then visualEffectClass t = emotionVisualEffects !! Emotion_value (shown_emotion u)
               ∧ filterEffectClass t
                 = default EmptyString
                     (emotionFilterEffects !! Emotion_value (shown_emotion u))
          else visualEffectClass t = emotionVisualEffects !! Emotion_value NEUTRAL
               ∧ visualEffectClass t = Some "border-transparent"
               ∧ filterEffectClass t = EmptyString)).
Proof.
  split.
  - intros e. destruct e; do 2 eexists; split; vm_compute; reflexivity.
  - intros u. unfold theme. rewrite currentEmotion_shown.
    assert (∃ cfg, emotionConfig !! Emotion_value (shown_emotion u) = Some cfg)
      as [cfg Hcfg] by (destruct (shown_emotion u); eexists; vm_compute; reflexivity).
    rewrite Hcfg. eexists _, cfg. split; [reflexivity|]. split; [done|].
    cbn [th_gradient th_icon th_title visualEffectClass filterEffectClass].
    repeat (split; [reflexivity|]). split.
    + intros Hnone. unfold shown_emotion in Hcfg. rewrite Hnone in Hcfg.
      split; [done|]. vm_compute in Hcfg. by injection Hcfg as <-.
    + by destruct (isAnalyzing u && bool_decide (is_Some (analysisResult u))).
Qed.

(** ** The capture loop *)

Lemma timers_match_ext (running : bool) (a a' : App) :
  intervalRef a' = intervalRef a → timers a' = timers a →
  timers_match running a → timers_match running a'.
Proof. unfold timers_match. intros -> ->. done. Qed.

Lemma stopWebcam_frame (a : App) :
  ui (stopWebcam a) = ui a ∧ intervalRef (stopWebcam a) = intervalRef a
  ∧ timers (stopWebcam a) = timers a ∧ nextTimer (stopWebcam a) = nextTimer a
  ∧ speech (stopWebcam a) = speech a ∧ inflight (stopWebcam a) = inflight a.
Proof. unfold stopWebcam. by destruct (streamRef a). Qed.

Lemma startWebcam_frame (a : App) :
  isAnalyzing (ui (startWebcam a)) = isAnalyzing (ui a)
  ∧ intervalRef (startWebcam a) = intervalRef a
  ∧ timers (startWebcam a) = timers a
  ∧ speech (startWebcam a) = speech a ∧ inflight (startWebcam a) = inflight a.
Proof. unfold startWebcam. by destruct (mediaDevices (browser a)). Qed.

Lemma commit_isAnalyzing (before : bool) (a : App) :
  isAnalyzing (ui (commit before a)) = isAnalyzing (ui a).
Proof.
  unfold commit. destruct (Bool.eqb before (isAnalyzing (ui a))); [done|].
  unfold effect_body, effect_cleanup.
  destruct (stopWebcam_frame a) as (Hu & Hi & _).
  assert (isAnalyzing (ui (match intervalRef (stopWebcam a) with
                           | Some id => window_clearInterval id (stopWebcam a)
                           | None => stopWebcam a
                           end)) = isAnalyzing (ui a)) as E.
  { destruct (intervalRef (stopWebcam a)); simpl; by rewrite Hu. }
  set (a1 := match intervalRef (stopWebcam a) with
             | Some id => window_clearInterval id (stopWebcam a)
             | None => stopWebcam a
             end) in *.
  rewrite E. destruct (isAnalyzing (ui a)) eqn:Hrun.
  - simpl. by destruct (startWebcam_frame a1) as (-> & _).
  - destruct (stopWebcam_frame a1) as (Hu1 & _).
    destruct (intervalRef (stopWebcam a1)); simpl; by rewrite Hu1.
Qed.

Lemma commit_stopped_ui (before : bool) (a : App) :
  isAnalyzing (ui a) = false → ui (commit before a) = ui a.
Proof.
  intros Hstop. unfold commit.
  destruct (Bool.eqb before (isAnalyzing (ui a))); [done|].
  unfold effect_body, effect_cleanup.
  destruct (stopWebcam_frame a) as (Hu & _).
  set (a1 := match intervalRef (stopWebcam a) with
             | Some id => window_clearInterval id (stopWebcam a)
             | None => stopWebcam a
             end).
  assert (ui a1 = ui a) as E by (subst a1; destruct (intervalRef (stopWebcam a)); simpl; done).
  rewrite E, Hstop.
  destruct (stopWebcam_frame a1) as (Hu1 & _).
  destruct (intervalRef (stopWebcam a1)); simpl; congruence.
Qed.

Lemma commit_frame (before : bool) (a : App) :
  speech (commit before a) = speech a ∧ inflight (commit before a) = inflight a.
Proof.
  unfold commit. destruct (Bool.eqb before (isAnalyzing (ui a))); [done|].
  unfold effect_body, effect_cleanup.
  destruct (stopWebcam_frame a) as (_ & _ & _ & _ & Hs & Hf).
  set (a1 := match intervalRef (stopWebcam a) with
             | Some id => window_clearInterval id (stopWebcam a)
             | None => stopWebcam a
             end).
  assert (speech a1 = speech a ∧ inflight a1 = inflight a) as [E1 E2]
    by (subst a1; destruct (intervalRef (stopWebcam a)); simpl; done).
  destruct (isAnalyzing (ui a1)).
  - simpl. destruct (startWebcam_frame a1) as (_ & _ & _ & -> & ->). done.
  - destruct (stopWebcam_frame a1) as (_ & _ & _ & _ & Hs1 & Hf1).
    destruct (intervalRef (stopWebcam a1)); simpl; rewrite ?Hs1, ?Hf1; done.
Qed.

Lemma commit_matches (before : bool) (a : App) :
  timers_match before a → timer_invariant (commit before a).
Proof.
  intros Hm. unfold timer_invariant. rewrite commit_isAnalyzing.
  unfold commit. destruct (Bool.eqb before (isAnalyzing (ui a))) eqn:E.
  { apply Bool.eqb_prop in E. by subst before. }
  unfold effect_body, effect_cleanup.
  destruct (stopWebcam_frame a) as (Hu & Hi & Ht & _).
  destruct before; destruct (isAnalyzing (ui a)) eqn:Hrun; try discriminate E.
  - (* analysis stops *)
    destruct Hm as (id & cb & Href & Htimers).
    rewrite Hi, Href. cbn [ui window_clearInterval with_timers called].
    rewrite Hu, Hrun.
    set (a1 := window_clearInterval id (stopWebcam a)).
    assert (intervalRef a1 = Some id ∧ timers a1 = ∅) as [R1 T1].
    { subst a1. simpl. rewrite Hi, Ht, Htimers. split; [done|]. apply delete_singleton_eq. }
    destruct (stopWebcam_frame a1) as (_ & Hi1 & Ht1 & _).
    rewrite Hi1, R1. simpl. split; [done|]. rewrite Ht1, T1. apply delete_empty.
  - (* analysis starts *)
    destruct Hm as [Href Htimers].
    rewrite Hi, Href. rewrite Hu, Hrun.
    destruct (startWebcam_frame (stopWebcam a)) as (_ & _ & Ht2 & _).
    simpl. eexists _, _. split; [reflexivity|].
    rewrite Ht2, Ht, Htimers. apply insert_empty.
Qed.

Lemma captureAndAnalyze_frame (cb : Callback) (dom : Dom) (a : App) :
  isAnalyzing (ui (captureAndAnalyze cb dom a)) = isAnalyzing (ui a)
  ∧ intervalRef (captureAndAnalyze cb dom a) = intervalRef a
  ∧ timers (captureAndAnalyze cb dom a) = timers a.
Proof.
  unfold captureAndAnalyze.
  destruct (cb_isLoading cb), (videoRef dom), (canvasRef dom) as [canvas|]; try done.
  by destruct (context2d canvas).
Qed.

(** What the [try] after the [await] leaves alone, whichever way it
    goes. *)
Lemma received_frame (cb : Callback) (r : AnalysisResult) (now : Z) (a : App) :
  browser (captureAndAnalyze_received cb r now a) = browser a
  ∧ speech (captureAndAnalyze_received cb r now a) = speech a
  ∧ intervalRef (captureAndAnalyze_received cb r now a) = intervalRef a
  ∧ timers (captureAndAnalyze_received cb r now a) = timers a
  ∧ streamRef (captureAndAnalyze_received cb r now a) = streamRef a
  ∧ streams (captureAndAnalyze_received cb r now a) = streams a
  ∧ nextStream (captureAndAnalyze_received cb r now a) = nextStream a
  ∧ cameraRequests (captureAndAnalyze_received cb r now a) = cameraRequests a
  ∧ inflight (captureAndAnalyze_received cb r now a) = inflight a
  ∧ isLoading (ui (captureAndAnalyze_received cb r now a)) = isLoading (ui a)
  ∧ analysisResult (ui (captureAndAnalyze_received cb r now a)) = Some r
  ∧ surpriseKey (ui (captureAndAnalyze_received cb r now a))
    = match emotion r with SURPRISED => now | _ => surpriseKey (ui a) end
  ∧ (isAnalyzing (ui (captureAndAnalyze_received cb r now a)) = isAnalyzing (ui a)
     ∨ isAnalyzing (ui (captureAndAnalyze_received cb r now a)) = false)
  ∧ ∃ said, calls (captureAndAnalyze_received cb r now a)
            = (calls a ++ map call_synth said)%list.
Proof.
  unfold captureAndAnalyze_received.
  destruct (negb _).
  - destruct (speak_value _ _ _) as [said [err|]];
      destruct (emotion r); simpl; repeat (split; [auto; fail|]); by exists said.
  - destruct (emotion r); simpl; repeat (split; [auto; fail|]);
      exists []; simpl; by rewrite app_nil_r.
Qed.

Lemma resume_frame (cb : Callback) (settled : Eff Value) (now : Z) (a a' : App) :
  captureAndAnalyze_resume cb settled now a = Some a' →
  intervalRef a' = intervalRef a ∧ timers a' = timers a
  ∧ speech a' = speech a
  ∧ (isAnalyzing (ui a') = isAnalyzing (ui a) ∨ isAnalyzing (ui a') = false).
Proof.
  unfold captureAndAnalyze_resume.
  destruct (outcome settled) as [v|err].
  - destruct (asAnalysisResult v) as [result|]; [|discriminate].
    intros [= <-].
    destruct (received_frame cb result now (called (map call_console (console settled)) a))
      as (_ & Hs & Hi & Ht & _ & _ & _ & _ & _ & _ & _ & _ & Hrun & _).
    cbn [intervalRef timers speech ui with_ui]. rewrite Hs, Hi, Ht. auto.
  - intros [= <-]. simpl. auto.
Qed.

Section LoopFacts.
Context `{Builtins}.

Lemma step_invariant (a a' : App) (ev : Event) :
  timer_invariant a → step a ev = Some a' → timer_invariant a'.
Proof.
  unfold timer_invariant at 1. intros Hinv.
  destruct ev; cbn [step].
  - destruct (isAnalyzing (ui a)) eqn:Hrun; [discriminate|]. intros [= <-].
    apply commit_matches. by eapply timers_match_ext; [| |apply Hinv].
  - destruct (isAnalyzing (ui a)) eqn:Hrun; [|discriminate]. intros [= <-].
    apply commit_matches. by eapply timers_match_ext; [| |apply Hinv].
  - destruct (timers a !! id) as [iv|]; [|discriminate]. intros [= <-].
    apply commit_matches.
    destruct (captureAndAnalyze_frame (handler iv) dom a) as (_ & Hi & Ht).
    by eapply timers_match_ext; [| |apply Hinv].
  - destruct (inflight a !! i) as [[img cb]|]; [|discriminate].
    destruct (captureAndAnalyze_resume _ _ _ _) as [a1|] eqn:Hres; [|discriminate].
    intros [= <-]. apply commit_matches.
    apply resume_frame in Hres as (Hi & Ht & _).
    by eapply timers_match_ext; [| |apply Hinv].
  - destruct (cameraRequests a); [discriminate|]. by intros [= <-].
  - destruct (cameraRequests a); [discriminate|]. by intros [= <-].
  - by intros [= <-].
  - by intros [= <-].
  - by intros [= <-].
Qed.

Lemma run_invariant (evs : list Event) (a a' : App) :
  timer_invariant a → run a evs = Some a' → timer_invariant a'.
Proof.
  revert a. induction evs as [|ev evs IH]; intros a Hinv; cbn [run].
  - by intros [= <-].
  - destruct (step a ev) as [a1|] eqn:Hstep; [|discriminate].
    apply IH. by eapply step_invariant.
Qed.

Lemma mount_Ok (b : Browser) (a : App) :
  mount b = Ok a → a = mounted b ∧ speechSynthesis b = true.
Proof. unfold mount. destruct (speechSynthesis b); [|discriminate]. by intros [= <-]. Qed.

Lemma reachable_run (b : Browser) (evs : list Event) (a : App) :
  speechSynthesis b = true → run (mounted b) evs = Some a → reachable a.
Proof. intros Hs Hrun. exists b, (mounted b), evs. unfold mount. by rewrite Hs. Qed.

Lemma reachable_invariant (a : App) : reachable a → timer_invariant a.
Proof.
  intros (b & a0 & evs & Hmount & Hrun). apply mount_Ok in Hmount as [-> _].
  eapply run_invariant; [|exact Hrun].
  by split.
Qed.

(** Once analysis has stopped, nothing but a click on Start resumes it,
    and no timer ticks. *)
Lemma stopped_step (a a' : App) (ev : Event) :
  timer_invariant a → isAnalyzing (ui a) = false →
  ev ≠ ClickStart → step a ev = Some a' →
  isAnalyzing (ui a') = false ∧ ∀ id dom, ev ≠ Tick id dom.
Proof.
  unfold timer_invariant. intros Hinv Hstop Hev. rewrite Hstop in Hinv.
  destruct Hinv as [Href Htimers].
  destruct ev; cbn [step]; try done.
  - by rewrite Hstop.
  - by rewrite Htimers, lookup_empty.
  - destruct (inflight a !! i) as [[img cb]|]; [|discriminate].
    destruct (captureAndAnalyze_resume _ _ _ _) as [a1|] eqn:Hres; [|discriminate].
    intros [= <-]. rewrite commit_isAnalyzing. split; [|done].
    apply resume_frame in Hres as (_ & _ & _ & [E|E]); [|done].
    by rewrite E.
  - destruct (cameraRequests a); [discriminate|]. by intros [= <-].
  - destruct (cameraRequests a); [discriminate|]. by intros [= <-].
  - by intros [= <-].
  - by intros [= <-].
  - by intros [= <-].
Qed.

Lemma stopped_run (evs : list Event) (a a' : App) :
  timer_invariant a → isAnalyzing (ui a) = false →
  ¬ In ClickStart evs → run a evs = Some a' →
  isAnalyzing (ui a') = false ∧ timers a' = ∅ ∧ ∀ id dom, ¬ In (Tick id dom) evs.
Proof.
  revert a. induction evs as [|ev evs IH]; intros a Hinv Hstop Hno; cbn [run].
  - intros [= <-]. unfold timer_invariant in Hinv. rewrite Hstop in Hinv.
    destruct Hinv as [_ Ht]. by repeat split; [| |intros ? ? []].
  - destruct (step a ev) as [a1|] eqn:Hstep; [|discriminate]. intros Hrun.
    assert (ev ≠ ClickStart) as Hev by (intros ->; apply Hno; by left).
    destruct (stopped_step _ _ _ Hinv Hstop Hev Hstep) as [Hstop1 Htick].
    destruct (IH a1) as (Hs & Ht & Hn); try done.
    { by eapply step_invariant. }
    { intros Hin. apply Hno. by right. }
    repeat split; try done.
    intros id dom [E|Hin]; [by eapply Htick | by eapply Hn].
Qed.

End LoopFacts.

Lemma spoken_called (cs : list Call) (a : App) :
  spoken (called cs a)
  = (spoken a ++ omap (fun c => match c with
                                | call_synth (synth_speak u) => Some (u_text u)
                                | _ => None
                                end) cs)%list.
Proof. unfold spoken. simpl. apply omap_app. Qed.

Lemma spoken_console (out : list ConsoleEntry) (a : App) :
  spoken (called (map call_console out) a) = spoken a.
Proof.
  rewrite spoken_called. induction out as [|c out IH]; simpl in *.
  - apply app_nil_r.
  - exact IH.
Qed.

Lemma spoken_commit (before : bool) (a : App) :
  spoken (commit before a) = spoken a.
Proof.
  unfold commit, effect_body, effect_cleanup, stopWebcam, startWebcam,
    window_setInterval, window_clearInterval, spoken.
  destruct a as [b u s r st t n c f cs]. simpl.
  repeat (case_match; simpl; try done);
    rewrite ?omap_app; simpl; rewrite ?app_nil_r; done.
Qed.

Lemma commit_same (before : bool) (a : App) :
  isAnalyzing (ui a) = before → commit before a = a.
Proof. intros <-. unfold commit. by rewrite Bool.eqb_reflx. Qed.

Lemma spoken_with_ui (u : UiState) (a : App) : spoken (with_ui u a) = spoken a.
Proof. reflexivity. Qed.

(** What the continuation does with a result: its message is handed to
    [speak] exactly when it differs from the last spoken message the
    callback closed over, after which the state holds it as the last
    spoken message; where handing it over throws, the [catch] runs
    instead. *)
Lemma announce_compares_with_captured (cb : Callback) (r : AnalysisResult)
    (now : Z) (a : App) :
  if strict_equal (encouragingMessage r) (cb_lastSpokenMessage cb)
  then spoken (captureAndAnalyze_received cb r now a) = spoken a
       ∧ lastSpokenMessage (ui (captureAndAnalyze_received cb r now a))
         = lastSpokenMessage (ui a)
       ∧ error (ui (captureAndAnalyze_received cb r now a)) = error (ui a)
       ∧ isAnalyzing (ui (captureAndAnalyze_received cb r now a)) = isAnalyzing (ui a)
  else if truthy (encouragingMessage r) && speechSynthesis (browser a)
  then match toString (encouragingMessage r) with
       | Ok text =>
           spoken (captureAndAnalyze_received cb r now a) = (spoken a ++ [text])%list
           ∧ lastSpokenMessage (ui (captureAndAnalyze_received cb r now a))
             = encouragingMessage r
           ∧ error (ui (captureAndAnalyze_received cb r now a)) = error (ui a)
           ∧ isAnalyzing (ui (captureAndAnalyze_received cb r now a))
             = isAnalyzing (ui a)
       | Throw err =>
           spoken (captureAndAnalyze_received cb r now a) = spoken a
           ∧ lastSpokenMessage (ui (captureAndAnalyze_received cb r now a))
             = lastSpokenMessage (ui a)
           ∧ error (ui (captureAndAnalyze_received cb r now a)) = Some (message err)
           ∧ isAnalyzing (ui (captureAndAnalyze_received cb r now a)) = false
       end
  else spoken (captureAndAnalyze_received cb r now a) = spoken a
       ∧ lastSpokenMessage (ui (captureAndAnalyze_received cb r now a))
         = encouragingMessage r
       ∧ error (ui (captureAndAnalyze_received cb r now a)) = error (ui a)
       ∧ isAnalyzing (ui (captureAndAnalyze_received cb r now a)) = isAnalyzing (ui a).
Proof.
  unfold captureAndAnalyze_received.
  destruct (strict_equal _ _); cbn [negb].
  { by destruct (emotion r). }
  unfold speak_value. cbn [browser with_ui].
  destruct (truthy (encouragingMessage r)), (speechSynthesis (browser a));
    cbn [negb orb andb].
  - destruct (toString (encouragingMessage r)) as [text|err];
      destruct (speaking (cb_speech cb)), (emotion r);
      unfold spoken; simpl; rewrite ?omap_app; simpl; rewrite ?app_nil_r; done.
  - destruct (emotion r); unfold spoken; simpl; rewrite ?app_nil_r; done.
  - destruct (emotion r); unfold spoken; simpl; rewrite ?app_nil_r; done.
  - destruct (emotion r); unfold spoken; simpl; rewrite ?app_nil_r; done.
Qed.

Section TimerCallback.
Context `{Builtins}.

(** A result that settles while analysis goes on leaves the timer with the
    callback it has: the instance of [captureAndAnalyze] that ticks is not
    replaced when [lastSpokenMessage] or [isLoading] changes. *)
Lemma settled_keeps_timer_callback (a a' : App) (i : nat)
    (remote : Throws GenerateContentResponse) (now : Z) :
  step a (Settled i remote now) = Some a' →
  isAnalyzing (ui a') = isAnalyzing (ui a) →
  timers a' = timers a.
Proof.
  cbn [step]. destruct (inflight a !! i) as [[img cb]|]; [|discriminate].
  destruct (captureAndAnalyze_resume _ _ _ _) as [a1|] eqn:Hres; [|discriminate].
  intros [= <-]. rewrite commit_isAnalyzing. intros Hsame.
  rewrite commit_same by done.
  by apply resume_frame in Hres as (_ & -> & _).
Qed.

End TimerCallback.

Section SettledFacts.
Context `{Builtins}.

(** The step of an awaited call that throws. *)
Lemma settled_failure (a : App) (i : nat) (img : option string) (cb : Callback)
    (remote : Throws GenerateContentResponse) (now : Z) (err : Error) :
  inflight a !! i = Some (img, cb) →
  outcome (analyzeImage {| generateContent := fun _ => remote |} img) = Throw err →
  ∃ a',
    step a (Settled i remote now) = Some a'
    ∧ ui a' = setIsLoading false
                (setIsAnalyzing false (setError (Some analysis_failed) (ui a)))
    ∧ spoken a' = spoken a
    ∧ speech a' = speech a
    ∧ inflight a' = delete i (inflight a).
Proof.
  intros Hi Herr.
  cbn [step]. rewrite Hi. unfold captureAndAnalyze_resume. rewrite Herr.
  cbn [fmap option_fmap option_map]. eexists. split; [reflexivity|].
  rewrite commit_stopped_ui by reflexivity.
  rewrite spoken_commit.
  match goal with
  | |- context [commit ?b ?x] => destruct (commit_frame b x) as [-> ->]
  end.
  rewrite (analyzeImage_classifies _ _ _ Herr).
  split; [reflexivity|]. split; [|done].
  unfold captureAndAnalyze_catch. by rewrite !spoken_with_ui, spoken_console.
Qed.

(** An awaited call always settles: whatever [analyzeImage] gives, the
    continuation runs to its end. *)
Lemma settled_runs (a : App) (i : nat) (img : option string) (cb : Callback)
    (remote : Throws GenerateContentResponse) (now : Z) :
  inflight a !! i = Some (img, cb) →
  is_Some (step a (Settled i remote now)).
Proof.
  intros Hi. cbn [step]. rewrite Hi. unfold captureAndAnalyze_resume.
  destruct (outcome (analyzeImage {| generateContent := fun _ => remote |} img))
    as [v|err] eqn:Hout.
  - destruct (analyzeImage_result_is_held _ _ _ Hout) as (r & -> & _).
    by eexists.
  - by eexists.
Qed.

(** An event is refused exactly when it cannot occur. *)
Lemma step_enabled (a : App) (ev : Event) :
  is_Some (step a ev) ↔ enabled a ev = true.
Proof.
  destruct ev; cbn [enabled].
  - cbn [step]. destruct (isAnalyzing (ui a)); split; intros Hx;
      first [done | by destruct Hx | by eexists].
  - cbn [step]. destruct (isAnalyzing (ui a)); split; intros Hx;
      first [done | by destruct Hx | by eexists].
  - cbn [step]. destruct (timers a !! id) as [iv|]; split; intros Hx.
    + apply bool_decide_eq_true. by eexists.
    + by eexists.
    + by destruct Hx.
    + apply bool_decide_eq_true in Hx. by destruct Hx.
  - destruct (inflight a !! i) as [[img cb]|] eqn:Hi; split; intros Hx.
    + apply bool_decide_eq_true. by eexists.
    + by eapply settled_runs.
    + cbn [step] in Hx. rewrite Hi in Hx. by destruct Hx.
    + apply bool_decide_eq_true in Hx. by destruct Hx.
  - cbn [step]. destruct (cameraRequests a); split; intros Hx;
      first [done | by destruct Hx | by eexists].
  - cbn [step]. destruct (cameraRequests a); split; intros Hx;
      first [done | by destruct Hx | by eexists].
  - split; [done | by eexists].
  - split; [done | by eexists].
  - split; [done | by eexists].
Qed.

End SettledFacts.

Section LoopClaims.
Context `{Builtins}.

(** C4. When [analyzeImage] throws in a capture tick, the message of the
    error is stored, [isAnalyzing] becomes false and the timer is cleared:
    from then on no tick can occur and analysis stays off, whatever else
    happens, until a click on Start, which arms a new timer. *)
Theorem failure_stops_the_loop (a : App) (i : nat) (img : option string)
    (cb : Callback) (remote : Throws GenerateContentResponse) (now : Z)
    (err : Error) :
  reachable a →
  inflight a !! i = Some (img, cb) →
  outcome (analyzeImage {| generateContent := fun _ => remote |} img) = Throw err →
  ∃ a',
    step a (Settled i remote now) = Some a'
    ∧ error (ui a') = Some (message err)
    ∧ message err = analysis_failed
    ∧ isAnalyzing (ui a') = false
    ∧ intervalRef a' = None
    ∧ timers a' = ∅
    ∧ (∀ evs a'', ¬ In ClickStart evs → run a' evs = Some a'' →
         isAnalyzing (ui a'') = false ∧ timers a'' = ∅
         ∧ ∀ id dom, ¬ In (Tick id dom) evs)
    ∧ ∃ a3 id cb',
        step a' ClickStart = Some a3
        ∧ isAnalyzing (ui a3) = true
        ∧ timers a3 = {[ id := {| delay := 5000; handler := cb' |} ]}.
Proof.
  intros Hreach Hi Herr.
  pose proof (reachable_invariant _ Hreach) as Hinv.
  assert (∃ a', step a (Settled i remote now) = Some a'
                ∧ error (ui a') = Some (message err)
                ∧ isAnalyzing (ui a') = false) as (a' & Hstep & He & Hstop).
  { cbn [step]. rewrite Hi. unfold captureAndAnalyze_resume. rewrite Herr.
    cbn [fmap option_fmap option_map]. eexists. split; [reflexivity|].
    rewrite commit_stopped_ui by reflexivity. done. }
  pose proof (step_invariant _ _ _ Hinv Hstep) as Hinv'.
  pose proof Hinv' as Hm. unfold timer_invariant in Hm. rewrite Hstop in Hm.
  destruct Hm as [Href Htimers].
  exists a'. repeat (split; [done|]).
  split; [by rewrite (analyzeImage_classifies _ _ _ Herr)|].
  repeat (split; [done|]).
  split.
  - intros evs a'' Hno Hrun. by eapply stopped_run.
  - assert (step a' ClickStart
            = Some (commit false (with_ui (handleStart (ui a')) a'))) as Hstart
      by (cbn [step]; by rewrite Hstop).
    pose proof (step_invariant _ _ _ Hinv' Hstart) as Hinv3.
    unfold timer_invariant in Hinv3. rewrite commit_isAnalyzing in Hinv3.
    destruct Hinv3 as (id & cb' & _ & Ht3).
    eexists _, id, cb'. split; [exact Hstart|].
    by rewrite commit_isAnalyzing.
Qed.

(** C5, as the code has it. In the states the component reaches, timers
    run only while analysis runs, each with a delay of 5000 ms. A tick
    takes no snapshot when the video or the canvas is missing or the canvas
    gives no 2D context. A tick whose callback holds the loading flag of
    the state draws the frame, encodes it as JPEG and sends it exactly when
    nothing is loading, the video and the canvas are there, and the canvas
    gives a 2D context. *)
Theorem tick_snapshots_when_allowed (a : App) (id : Z) (iv : Interval) (dom : Dom) :
  timers a !! id = Some iv →
  (reachable a →
   isAnalyzing (ui a) = true ∧ delay iv = 5000 ∧ intervalRef a = Some id)
  ∧ ∃ a',
      step a (Tick id dom) = Some a'
      ∧ (videoRef dom = None
         ∨ canvasRef dom = None
         ∨ (∃ canvas, canvasRef dom = Some canvas ∧ context2d canvas = false) →
         snapshots (new_calls a a') = [])
      ∧ (cb_isLoading (handler iv) = isLoading (ui a) →
         (snapshots (new_calls a a') ≠ []
          ↔ isLoading (ui a) = false
            ∧ is_Some (videoRef dom)
            ∧ ∃ canvas, canvasRef dom = Some canvas ∧ context2d canvas = true)
         ∧ ∀ video canvas,
             isLoading (ui a) = false →
             videoRef dom = Some video →
             canvasRef dom = Some canvas →
             context2d canvas = true →
             new_calls a a'
             = [drawImage (videoWidth video) (videoHeight video);
                toDataURL "image/jpeg" 7;
                call_generateContent
                  (request (String_split "," (dataURL canvas) !! 1%nat))]).
Proof.
  intros Hiv. split.
  { intros Hreach. pose proof (reachable_invariant _ Hreach) as Hinv.
    unfold timer_invariant in Hinv.
    destruct (isAnalyzing (ui a)) eqn:Hrun; cycle 1.
    { destruct Hinv as [_ Ht]. by rewrite Ht, lookup_empty in Hiv. }
    destruct Hinv as (id' & cb & Href & Ht).
    rewrite Ht in Hiv. by apply lookup_singleton_Some in Hiv as [-> <-]. }
  cbn [step]. rewrite Hiv.
  destruct (captureAndAnalyze_frame (handler iv) dom a) as (Hsame & _).
  rewrite commit_same by congruence.
  eexists. split; [reflexivity|].
  unfold captureAndAnalyze, new_calls.
  destruct (cb_isLoading (handler iv)) eqn:Hcb, (videoRef dom) as [video|],
    (canvasRef dom) as [canvas|]; cbn [calls]; rewrite ?drop_all;
    try (split; [done|]; intros <-; split;
         [split; [done | intros (? & [? ?] & ? & ? & ?); done]
         | intros ? ? ? ? ?; congruence]).
  destruct (context2d canvas) eqn:Hctx; simpl.
  - rewrite <- !app_assoc, drop_app_length. simpl. split.
    + intros [?|[?|(canvas' & [= <-] & ?)]]; congruence.
    + intros <-. split.
      * split; [|done]. intros _. repeat split; eauto.
      * intros video' canvas' _ [= <-] [= <-] _. reflexivity.
  - rewrite drop_all. split; [done|]. intros <-. split.
    + split; [done|]. intros (_ & _ & canvas' & [= <-] & Hc). congruence.
    + intros video' canvas' _ _ [= <-] Hc. congruence.
Qed.

(** C9, as the code has it. When [analyzeImage] throws, the result on
    display, the last spoken message and the surprise key are left as they
    were and nothing is spoken; the error becomes the message of the
    error, and [isAnalyzing] and [isLoading] become false. *)
Theorem failure_keeps_result (a : App) (i : nat) (img : option string)
    (cb : Callback) (remote : Throws GenerateContentResponse) (now : Z)
    (err : Error) :
  inflight a !! i = Some (img, cb) →
  outcome (analyzeImage {| generateContent := fun _ => remote |} img) = Throw err →
  ∃ a',
    step a (Settled i remote now) = Some a'
    ∧ ui a' = {| isAnalyzing := false;
                 isLoading := false;
                 error := Some (message err);
                 analysisResult := analysisResult (ui a);
                 lastSpokenMessage := lastSpokenMessage (ui a);
                 surpriseKey := surpriseKey (ui a) |}
    ∧ message err = analysis_failed
    ∧ spoken a' = spoken a
    ∧ speech a' = speech a.
Proof.
  intros Hi Herr.
  destruct (settled_failure a i img cb remote now err Hi Herr)
    as (a' & Hstep & Hui & Hsp & Hspeech & _).
  exists a'. split; [done|].
  rewrite (analyzeImage_classifies _ _ _ Herr). by rewrite Hui.
Qed.

End LoopClaims.

(** ** The embedding on concrete inputs *)

(** Numbers as JavaScript prints them: the shortest digits that give the
    double back, in place or with an exponent. *)
Example Number_toString_samples :
  map (fun literal => Number_toString (double_of_decimal literal.1 literal.2))
    [(15, 0); (150, -1); (1, 21); (1, -7); (30000000000000004, -17);
     (9007199254740993, 0); (1, 23); (1, 400); (-25, -1); (1, -400)]
  = ["15"; "15"; "1e+21"; "1e-7"; "0.30000000000000004";
     "9007199254740992"; "1e+23"; "Infinity"; "-2.5"; "0"].
Proof. vm_compute. reflexivity. Qed.

(** An array joins the conversions of its elements. *)
Example toString_of_array :
  toString (JArr [JNum 1 0; JNull; JStr "a"; JArr [JNum 25 (-1); JBool true] ∅] ∅)
  = Ok "1,,a,2.5,true".
Proof. vm_compute. reflexivity. Qed.

(** The executable built-ins on the sample texts. *)
Example parse_emotion_only :
  Reference.parse ("{" ++ Sample.member "emotion" "HAPPY" ++ "}")
  = Ok (JObj {[ "emotion" := JStr "HAPPY" ]}).
Proof. vm_compute. reflexivity. Qed.

Example analyze_padded :
  option_map encouragingMessage
    (asAnalysisResult (Sample.returned (Sample.analyze Sample.padded)))
  = Some (JStr "Chin up").
Proof. vm_compute. reflexivity. Qed.

(** A response that is a number: the warning is written, the assignment to
    the number throws, and the call fails with the classified error. *)
Example analyze_bare_number :
  Sample.analyze Sample.bare_number
  = ([console_warn "Received unknown emotion: " JUndefined ". Defaulting to NEUTRAL.";
      console_error "Error analyzing image with Gemini API:"
        (TypeError "Cannot create property on a primitive")],
     Throw (MkError analysis_failed)).
Proof. vm_compute. reflexivity. Qed.

(** A response that is an array is returned with an emotion property. *)
Example analyze_array :
  outcome (Sample.analyze Sample.array_response)
  = Ok (JArr [JNum 1 0] {[ "emotion" := JStr "NEUTRAL" ]}).
Proof. vm_compute. reflexivity. Qed.

(** An emotion that cannot be converted to a string: building the warning
    throws, and the call fails with the classified error. *)
Example analyze_unprintable_emotion :
  Sample.analyze Sample.unprintable_emotion
  = ([console_error "Error analyzing image with Gemini API:"
        (TypeError "Cannot convert object to primitive value")],
     Throw (MkError analysis_failed)).
Proof. vm_compute. reflexivity. Qed.

(** C1, as stated, fails: a response with the emotion field alone is
    returned, and it has not the shape of [AnalysisResult]. *)
Lemma analyzeImage_returns_untyped_value :
  ¬ returns_typed_or_classified (H := Reference.builtins).
Proof.
  intros Hall.
  destruct (Hall (Sample.client Sample.emotion_only) (Some "AAAA"))
    as [(v & Hv & Hshape) | Hthrow].
  - vm_compute in Hv. injection Hv as <-. vm_compute in Hshape. discriminate Hshape.
  - vm_compute in Hthrow. discriminate Hthrow.
Qed.

(** A rejected remote call and a truncated response text both end in the
    classified error; the rejection itself is written to the console. *)
Lemma analyzeImage_returns_or_classifies_witness :
  Sample.analyze Sample.offline
  = ([console_error "Error analyzing image with Gemini API:"
        (NetworkError "Failed to fetch")],
     Throw (MkError analysis_failed))
  ∧ outcome (Sample.analyze Sample.truncated) = Throw (MkError analysis_failed).
Proof.
  split.
  - destruct (analyzeImage_returns_or_classifies (H := Reference.builtins)
                (Sample.client Sample.offline) (Some "AAAA"))
      as (_ & _ & Hnet & _).
    apply Hnet. reflexivity.
  - destruct (analyzeImage_returns_or_classifies (H := Reference.builtins)
                (Sample.client Sample.truncated) (Some "AAAA"))
      as (_ & Hany & _).
    destruct (outcome (Sample.analyze Sample.truncated)) as [v|err] eqn:E.
    + vm_compute in E. discriminate E.
    + f_equal. apply Hany. exact E.
Defined.

(** A response whose emotion is JOYFUL comes back with NEUTRAL. *)
Lemma analyzeImage_emotion_is_a_label_witness :
  get (Sample.returned (Sample.analyze (Sample.full "JOYFUL" "Keep going!"))) Key.emotion
  = Ok (JStr "NEUTRAL").
Proof.
  destruct (analyzeImage_emotion_is_a_label (H := Reference.builtins)
              (Sample.client (Sample.full "JOYFUL" "Keep going!")) (Some "AAAA")
              (Sample.returned (Sample.analyze (Sample.full "JOYFUL" "Keep going!"))))
    as [_ (response & t & p & x & Hg & Ht & Hp & Hx & Hneutral)].
  { vm_compute. reflexivity. }
  apply Hneutral.
  injection Hg as <-. injection Ht as <-.
  vm_compute in Hp. injection Hp as <-.
  vm_compute in Hx. injection Hx as <-.
  reflexivity.
Defined.

(** C6, as stated, fails: a response with the emotion field alone is
    returned as it is, without the three other fields. *)
Lemma analyzeImage_returns_incomplete_result :
  ¬ every_result_is_complete (H := Reference.builtins).
Proof.
  intros Hall.
  specialize (Hall (Sample.client Sample.emotion_only) (Some "AAAA")
                (Sample.returned (Sample.analyze Sample.emotion_only))).
  assert (hasOwn (Sample.returned (Sample.analyze Sample.emotion_only))
            Key.environmentAnalysis = true) as E.
  { apply Hall. vm_compute. reflexivity. }
  vm_compute in E. discriminate E.
Qed.

(** The same response, returned with its emotion field. *)
Lemma analyzeImage_checks_emotion_only_witness :
  hasOwn (Sample.returned (Sample.analyze Sample.emotion_only)) Key.emotion = true.
Proof.
  destruct (analyzeImage_checks_emotion_only (H := Reference.builtins)
              (Sample.client Sample.emotion_only) (Some "AAAA")
              (Sample.returned (Sample.analyze Sample.emotion_only)))
    as (_ & Hown & _).
  { vm_compute. reflexivity. }
  exact Hown.
Defined.

(** Among a French voice, two English ones and two Google English ones, the
    first Google voice is the best, although an en-US voice comes before. *)
Lemma speak_prefers_best_voice_witness :
  best_voice Sample.installed (Some (Sample.mk_voice "Google UK English Female" "en-GB")).
Proof.
  destruct (speak_prefers_best_voice
              {| voices := Sample.installed; speaking := false |} "Keep going!")
    as [Hbest _].
  apply Hbest. reflexivity.
Defined.

(** Start, one tick, and the remote call is rejected. *)
Lemma failure_stops_the_loop_witness :
  ∃ a', step (H := Reference.builtins)
          (Sample.after [ClickStart; Tick 1 Sample.frame])
          (Settled 0 Sample.offline 1000) = Some a'
        ∧ error (ui a') = Some analysis_failed
        ∧ isAnalyzing (ui a') = false
        ∧ timers a' = ∅.
Proof.
  destruct (failure_stops_the_loop (H := Reference.builtins)
              (Sample.after [ClickStart; Tick 1 Sample.frame]) 0 (Some "AAAA")
              Sample.idle_callback Sample.offline 1000 (MkError analysis_failed))
    as (a' & Hstep & Herror & _ & Hstop & _ & Htimers & _).
  - apply (reachable_run Sample.chrome [ClickStart; Tick 1 Sample.frame]);
      [reflexivity | vm_compute; reflexivity].
  - vm_compute. reflexivity.
  - vm_compute. reflexivity.
  - exists a'. repeat split; assumption.
Defined.

(** C5, as stated, fails: analysis is stopped and started again while a
    request is still awaited, so [isLoading] is true for the callback of the
    new timer, and its tick returns at the guard without a snapshot. *)
Lemma tick_without_snapshot :
  ¬ every_tick_snapshots (H := Reference.builtins).
Proof.
  intros Hall.
  apply (Hall (Sample.after [ClickStart; Tick 1 Sample.frame; ClickStop; ClickStart])
              2 Sample.frame
              (Sample.after [ClickStart; Tick 1 Sample.frame; ClickStop; ClickStart])).
  - apply (reachable_run Sample.chrome
             [ClickStart; Tick 1 Sample.frame; ClickStop; ClickStart]);
      [reflexivity | vm_compute; reflexivity].
  - vm_compute. reflexivity.
  - vm_compute. reflexivity.
  - vm_compute. reflexivity.
Qed.

(** The first tick after Start draws and encodes the frame and sends it. *)
Lemma tick_snapshots_when_allowed_witness :
  ∃ a', step (H := Reference.builtins) (Sample.after [ClickStart])
          (Tick 1 Sample.frame) = Some a'
        ∧ new_calls (Sample.after [ClickStart]) a'
          = [drawImage 1280 720; toDataURL "image/jpeg" 7;
             call_generateContent (request (Some "AAAA"))].
Proof.
  destruct (tick_snapshots_when_allowed (H := Reference.builtins)
              (Sample.after [ClickStart]) 1
              {| delay := 5000; handler := Sample.idle_callback |} Sample.frame)
    as (_ & a' & Hstep & _ & Hfresh).
  - vm_compute. reflexivity.
  - exists a'. split; [exact Hstep|].
    destruct Hfresh as [_ Hcalls]; [reflexivity|].
    apply (Hcalls {| videoWidth := 1280; videoHeight := 720 |}
             {| context2d := true; dataURL := "data:image/jpeg;base64,AAAA" |});
      reflexivity.
Defined.

(** C9, as stated, fails: the loading flag, up while the call is awaited,
    is lowered when the call throws. *)
Lemma failure_lowers_isLoading :
  ¬ failure_changes_error_and_isAnalyzing_only (H := Reference.builtins).
Proof.
  intros Hall.
  destruct (step (H := Reference.builtins) Scenario.awaiting
              (Settled 0 Sample.offline 1000)) as [a'|] eqn:Hstep;
    [|vm_compute in Hstep; discriminate Hstep].
  destruct (Hall Scenario.awaiting 0%nat (Some "AAAA") Sample.idle_callback
              Sample.offline 1000 (MkError analysis_failed) a') as (Hload & _).
  - vm_compute. reflexivity.
  - vm_compute. reflexivity.
  - exact Hstep.
  - vm_compute in Hstep. injection Hstep as <-. vm_compute in Hload.
    discriminate Hload.
Qed.

(** A first tick brings a result that is spoken; the second tick fails: the
    result and the last spoken message stay. *)
Lemma failure_keeps_result_witness :
  ∃ a', step (H := Reference.builtins)
          (Sample.after [ClickStart; Tick 1 Sample.frame;
                         Settled 0 (Sample.full "HAPPY" "Keep going!") 1000;
                         Tick 1 Sample.frame])
          (Settled 0 Sample.offline 6000) = Some a'
        ∧ option_map encouragingMessage (analysisResult (ui a'))
          = Some (JStr "Keep going!")
        ∧ lastSpokenMessage (ui a') = JStr "Keep going!"
        ∧ error (ui a') = Some analysis_failed
        ∧ isAnalyzing (ui a') = false
        ∧ isLoading (ui a') = false.
Proof.
  destruct (failure_keeps_result (H := Reference.builtins)
              (Sample.after [ClickStart; Tick 1 Sample.frame;
                             Settled 0 (Sample.full "HAPPY" "Keep going!") 1000;
                             Tick 1 Sample.frame])
              0 (Some "AAAA") Sample.idle_callback Sample.offline 6000
              (MkError analysis_failed))
    as (a' & Hstep & Hui & _).
  - vm_compute. reflexivity.
  - vm_compute. reflexivity.
  - exists a'. split; [exact Hstep|]. rewrite Hui. vm_compute. repeat split.
Defined.

(** C3. The claim: after a successful analysis the message is spoken if and
    only if it differs from the last spoken message, so that two consecutive
    results with the same message are spoken once. On the code: analysis is
    started, and two ticks in a row bring the same encouraging message. After
    the first, the last spoken message is that message; the second is
    compared by the callback the timer holds from the start, which still has
    the empty string, and the message is spoken again. *)
Theorem repeated_message_is_spoken_twice :
  ∃ a1 a2,
    run (H := Reference.builtins) (mounted Sample.chrome)
      [ClickStart; Tick 1 Sample.frame;
       Settled 0 (Sample.full "HAPPY" "Keep going!") 1000] = Some a1
    ∧ lastSpokenMessage (ui a1) = JStr "Keep going!"
    ∧ spoken a1 = ["Keep going!"]
    ∧ run (H := Reference.builtins) a1
        [Tick 1 Sample.frame;
         Settled 0 (Sample.full "HAPPY" "Keep going!") 6000] = Some a2
    ∧ lastSpokenMessage (ui a2) = JStr "Keep going!"
    ∧ spoken a2 = ["Keep going!"; "Keep going!"].
Proof.
  exists (Sample.after [ClickStart; Tick 1 Sample.frame;
                        Settled 0 (Sample.full "HAPPY" "Keep going!") 1000]),
         (Sample.after [ClickStart; Tick 1 Sample.frame;
                        Settled 0 (Sample.full "HAPPY" "Keep going!") 1000;
                        Tick 1 Sample.frame;
                        Settled 0 (Sample.full "HAPPY" "Keep going!") 6000]).
  repeat (split; [vm_compute; reflexivity|]). vm_compute. reflexivity.
Qed.

(** * Further properties of the sources *)

(** ** What the effect leaves alone *)

Ltac effect_cases a before :=
  unfold commit, effect_body, effect_cleanup, stopWebcam, startWebcam,
    window_setInterval, window_clearInterval;
  destruct a as [[sy md] [an lo er re la su] s [r|] [st|] live ns t n c f cs];
  destruct before, an, md; simpl.

Lemma commit_effect (before : bool) (a : App) :
  browser (commit before a) = browser a
  ∧ isLoading (ui (commit before a)) = isLoading (ui a)
  ∧ analysisResult (ui (commit before a)) = analysisResult (ui a)
  ∧ lastSpokenMessage (ui (commit before a)) = lastSpokenMessage (ui a)
  ∧ surpriseKey (ui (commit before a)) = surpriseKey (ui a).
Proof. effect_cases a before; done. Qed.

Lemma commit_count (p : Call -> bool) (before : bool) (a : App) :
  (∀ id ms, p (setInterval id ms) = false) →
  (∀ id, p (clearInterval id) = false) →
  (∀ stream, p (stop_tracks stream) = false) →
  (∀ w h, p (getUserMedia w h) = false) →
  count_calls p (commit before a) = count_calls p a.
Proof.
  intros Hset Hclear Hstop Hmedia. unfold count_calls.
  effect_cases a before;
    rewrite ?List.filter_app; simpl; rewrite ?Hset, ?Hclear, ?Hstop, ?Hmedia;
    simpl; rewrite ?app_nil_r; done.
Qed.

Lemma captureAndAnalyze_effect (cb : Callback) (dom : Dom) (a : App) :
  browser (captureAndAnalyze cb dom a) = browser a
  ∧ speech (captureAndAnalyze cb dom a) = speech a
  ∧ isAnalyzing (ui (captureAndAnalyze cb dom a)) = isAnalyzing (ui a)
  ∧ analysisResult (ui (captureAndAnalyze cb dom a)) = analysisResult (ui a)
  ∧ lastSpokenMessage (ui (captureAndAnalyze cb dom a)) = lastSpokenMessage (ui a)
  ∧ surpriseKey (ui (captureAndAnalyze cb dom a)) = surpriseKey (ui a)
  ∧ spoken (captureAndAnalyze cb dom a) = spoken a.
Proof.
  unfold captureAndAnalyze.
  destruct (cb_isLoading cb), (videoRef dom), (canvasRef dom) as [canvas|]; try done.
  destruct (context2d canvas); [|done].
  repeat (split; [done|]).
  unfold spoken. simpl. rewrite !omap_app. simpl. by rewrite !app_nil_r.
Qed.

Lemma count_no_console (p : Call -> bool) (out : list ConsoleEntry) :
  (∀ c, p (call_console c) = false) → List.filter p (map call_console out) = [].
Proof. intros Hp. induction out as [|c out IH]; simpl; [done | by rewrite Hp]. Qed.

Lemma count_no_synth (p : Call -> bool) (l : list SynthCall) :
  (∀ c, p (call_synth c) = false) → List.filter p (map call_synth l) = [].
Proof. intros Hp. induction l as [|c l IH]; simpl; [done | by rewrite Hp]. Qed.

(** What the continuation of an awaited call leaves alone, whichever way
    it goes: it lowers the loading flag, may stop the analysis, and calls
    nothing but the console and the synthesizer. *)
Lemma resume_effect (cb : Callback) (settled : Eff Value) (now : Z) (a a' : App) :
  captureAndAnalyze_resume cb settled now a = Some a' →
  browser a' = browser a
  ∧ speech a' = speech a
  ∧ intervalRef a' = intervalRef a
  ∧ timers a' = timers a
  ∧ streamRef a' = streamRef a
  ∧ streams a' = streams a
  ∧ nextStream a' = nextStream a
  ∧ cameraRequests a' = cameraRequests a
  ∧ inflight a' = inflight a
  ∧ isLoading (ui a') = false
  ∧ (isAnalyzing (ui a') = isAnalyzing (ui a) ∨ isAnalyzing (ui a') = false)
  ∧ ∀ p, (∀ c, p (call_console c) = false) → (∀ c, p (call_synth c) = false) →
         count_calls p a' = count_calls p a.
Proof.
  unfold captureAndAnalyze_resume.
  destruct (outcome settled) as [v|err].
  - destruct (asAnalysisResult v) as [r|]; [|discriminate].
    intros [= <-].
    destruct (received_frame cb r now (called (map call_console (console settled)) a))
      as (Hb & Hs & Hi & Ht & Hsr & Hst & Hns & Hc & Hin & _ & _ & _ & Hrun & said & Hcalls).
    cbn [browser speech intervalRef timers streamRef streams nextStream cameraRequests
         inflight ui with_ui isLoading setIsLoading isAnalyzing].
    rewrite Hb, Hs, Hi, Ht, Hsr, Hst, Hns, Hc, Hin.
    split_and!; [done.. | exact Hrun |].
    intros p Hpc Hps. unfold count_calls. cbn [calls with_ui]. rewrite Hcalls.
    cbn [calls called].
    by rewrite !List.filter_app, count_no_console, count_no_synth, !app_nil_r.
  - intros [= <-]. simpl. split_and!; [done.. | by right |].
    intros p Hpc Hps. unfold count_calls. simpl.
    by rewrite List.filter_app, count_no_console, app_nil_r.
Qed.

(** What the continuation of a call that returned does, before the render
    that follows. *)
Lemma resume_success (cb : Callback) (settled : Eff Value) (v : Value)
    (r : AnalysisResult) (now : Z) (a : App) :
  outcome settled = Ok v →
  asAnalysisResult v = Some r →
  ∃ a1,
    captureAndAnalyze_resume cb settled now a = Some a1
    ∧ analysisResult (ui a1) = Some r
    ∧ isLoading (ui a1) = false
    ∧ inflight a1 = inflight a
    ∧ timers a1 = timers a
    ∧ surpriseKey (ui a1)
      = match emotion r with SURPRISED => now | _ => surpriseKey (ui a) end
    ∧ if strict_equal (encouragingMessage r) (cb_lastSpokenMessage cb)
      then spoken a1 = spoken a
           ∧ lastSpokenMessage (ui a1) = lastSpokenMessage (ui a)
           ∧ error (ui a1) = error (ui a)
           ∧ isAnalyzing (ui a1) = isAnalyzing (ui a)
      else if truthy (encouragingMessage r) && speechSynthesis (browser a)
      then match toString (encouragingMessage r) with
           | Ok text =>
               spoken a1 = (spoken a ++ [text])%list
               ∧ lastSpokenMessage (ui a1) = encouragingMessage r
               ∧ error (ui a1) = error (ui a)
               ∧ isAnalyzing (ui a1) = isAnalyzing (ui a)
           | Throw err =>
               spoken a1 = spoken a
               ∧ lastSpokenMessage (ui a1) = lastSpokenMessage (ui a)
               ∧ error (ui a1) = Some (message err)
               ∧ isAnalyzing (ui a1) = false
           end
      else spoken a1 = spoken a
           ∧ lastSpokenMessage (ui a1) = encouragingMessage r
           ∧ error (ui a1) = error (ui a)
           ∧ isAnalyzing (ui a1) = isAnalyzing (ui a).
Proof.
  intros Hv Hr. unfold captureAndAnalyze_resume. rewrite Hv, Hr.
  eexists. split; [reflexivity|].
  destruct (received_frame cb r now (called (map call_console (console settled)) a))
    as (_ & _ & _ & Ht & _ & _ & _ & _ & Hin & _ & Hres & Hkey & _ & _).
  pose proof (announce_compares_with_captured cb r now
                (called (map call_console (console settled)) a)) as Hsay.
  rewrite spoken_console in Hsay.
  cbn [ui with_ui analysisResult isLoading setIsLoading inflight timers surpriseKey
       lastSpokenMessage error isAnalyzing].
  rewrite spoken_with_ui.
  split; [exact Hres|]. split; [reflexivity|]. split; [exact Hin|].
  split; [exact Ht|]. split; [exact Hkey|]. exact Hsay.
Qed.

Section Reachable.
Context `{Builtins}.

Lemma run_snoc (evs : list Event) (ev : Event) (a a1 a2 : App) :
  run a evs = Some a1 → step a1 ev = Some a2 → run a (evs ++ [ev])%list = Some a2.
Proof.
  revert a. induction evs as [|e evs IH]; intros a; cbn [run app].
  - intros [= <-] ->. done.
  - destruct (step a e) as [a'|]; [|discriminate]. apply IH.
Qed.

Lemma reachable_step (a a' : App) (ev : Event) :
  reachable a → step a ev = Some a' → reachable a'.
Proof.
  intros (b & a0 & evs & Hmount & Hrun) Hstep. exists b, a0, (evs ++ [ev])%list.
  split; [done|]. by eapply run_snoc.
Qed.

(** Induction over the reachable states. *)
Lemma reachable_induction (P : App -> Prop) :
  (∀ b, speechSynthesis b = true → P (mounted b)) →
  (∀ a ev a', reachable a → P a → step a ev = Some a' → P a') →
  ∀ a, reachable a → P a.
Proof.
  intros Hinit Hstep a (b & a0 & evs & Hmount & Hrun).
  apply mount_Ok in Hmount as [-> Hsynth].
  assert (∀ evs a0, reachable a0 → P a0 → run a0 evs = Some a → P a) as Hgen.
  { clear evs Hrun. induction evs as [|ev evs IH]; intros a0 Hr0 HP0; cbn [run].
    - by intros [= <-].
    - destruct (step a0 ev) as [a1|] eqn:Hs; [|discriminate].
      apply IH; [by eapply reachable_step | by eapply Hstep]. }
  apply (Hgen evs (mounted b)); [by apply (reachable_run b []) | by apply Hinit | exact Hrun].
Qed.

Lemma step_browser (a a' : App) (ev : Event) :
  step a ev = Some a' → browser a' = browser a.
Proof.
  destruct ev; cbn [step].
  - destruct (isAnalyzing (ui a)); [discriminate|]. intros [= <-].
    by destruct (commit_effect false (with_ui (handleStart (ui a)) a)) as (-> & _).
  - destruct (isAnalyzing (ui a)); [|discriminate]. intros [= <-].
    by destruct (commit_effect true (with_ui (handleStop (ui a)) a)) as (-> & _).
  - destruct (timers a !! id) as [iv|]; [|discriminate]. intros [= <-].
    destruct (commit_effect (isAnalyzing (ui a)) (captureAndAnalyze (handler iv) dom a))
      as (-> & _).
    by destruct (captureAndAnalyze_effect (handler iv) dom a) as (-> & _).
  - destruct (inflight a !! i) as [[img cb]|]; [|discriminate].
    destruct (captureAndAnalyze_resume _ _ _ _) as [a1|] eqn:Hres; [|discriminate].
    intros [= <-].
    destruct (commit_effect (isAnalyzing (ui a)) a1) as (-> & _).
    by apply resume_effect in Hres as (-> & _).
  - destruct (cameraRequests a); [discriminate|]. by intros [= <-].
  - destruct (cameraRequests a); [discriminate|]. by intros [= <-].
  - by intros [= <-].
  - by intros [= <-].
  - by intros [= <-].
Qed.

(** Every reachable state is one of a browser with speech synthesis. *)
Lemma reachable_speechSynthesis (a : App) :
  reachable a → speechSynthesis (browser a) = true.
Proof.
  revert a. apply (reachable_induction (fun a => speechSynthesis (browser a) = true)).
  - by intros b Hb.
  - intros a ev a' _ Hb Hstep. by rewrite (step_browser _ _ _ Hstep).
Qed.

Lemma step_last_spoken (a a' : App) (ev : Event) :
  speechSynthesis (browser a) = true →
  last_spoken_agrees a → step a ev = Some a' → last_spoken_agrees a'.
Proof.
  intros Hsynth Hinv Hstep.
  unfold last_spoken_agrees in *.
  assert (lastSpokenMessage (ui a') = lastSpokenMessage (ui a)
          ∧ spoken a' = spoken a
          ∨ truthy (lastSpokenMessage (ui a')) = false
          ∨ ∃ text, toString (lastSpokenMessage (ui a')) = Ok text
                    ∧ spoken a' = (spoken a ++ [text])%list) as Hcases.
  { clear Hinv. revert Hstep. destruct ev; cbn [step].
    - destruct (isAnalyzing (ui a)); [discriminate|]. intros [= <-]. left.
      rewrite spoken_commit.
      by destruct (commit_effect false (with_ui (handleStart (ui a)) a))
        as (_ & _ & _ & -> & _).
    - destruct (isAnalyzing (ui a)); [|discriminate]. intros [= <-]. left.
      rewrite spoken_commit.
      by destruct (commit_effect true (with_ui (handleStop (ui a)) a))
        as (_ & _ & _ & -> & _).
    - destruct (timers a !! id) as [iv|]; [|discriminate]. intros [= <-]. left.
      rewrite spoken_commit.
      destruct (commit_effect (isAnalyzing (ui a)) (captureAndAnalyze (handler iv) dom a))
        as (_ & _ & _ & -> & _).
      by destruct (captureAndAnalyze_effect (handler iv) dom a)
        as (_ & _ & _ & _ & -> & _ & ->).
    - destruct (inflight a !! i) as [[img cb]|]; [|discriminate].
      destruct (captureAndAnalyze_resume _ _ _ _) as [a1|] eqn:Hres; [|discriminate].
      intros [= <-]. rewrite spoken_commit.
      destruct (commit_effect (isAnalyzing (ui a)) a1) as (_ & _ & _ & -> & _).
      revert Hres. unfold captureAndAnalyze_resume.
      destruct (outcome (analyzeImage {| generateContent := fun _ => remote |} img))
        as [v|err].
      + destruct (asAnalysisResult v) as [r|]; [|discriminate]. intros [= <-].
        cbn [ui with_ui lastSpokenMessage setIsLoading]. rewrite spoken_with_ui.
        pose proof (announce_compares_with_captured cb r now
                      (called (map call_console
                                 (console (analyzeImage
                                    {| generateContent := fun _ => remote |} img)))
                         (with_inflight (delete i (inflight a)) a))) as Hsay.
        rewrite spoken_console in Hsay. cbn [browser called with_inflight] in Hsay.
        rewrite Hsynth, andb_true_r in Hsay.
        destruct (strict_equal _ _).
        * left. by destruct Hsay as (-> & -> & _).
        * destruct (truthy (encouragingMessage r)) eqn:Htruthy.
          -- destruct (toString (encouragingMessage r)) as [text|e] eqn:Htext.
             ++ right. right. exists text. destruct Hsay as (-> & -> & _). done.
             ++ left. by destruct Hsay as (-> & -> & _).
          -- right. left. destruct Hsay as (_ & -> & _). done.
      + intros [= <-]. left. split; [done|].
        unfold captureAndAnalyze_catch. by rewrite !spoken_with_ui, spoken_console.
    - destruct (cameraRequests a); [discriminate|]. intros [= <-]. left.
      split; [done|]. unfold startWebcam_granted, spoken. done.
    - destruct (cameraRequests a); [discriminate|]. intros [= <-]. left.
      split; [done|]. unfold startWebcam_denied, spoken. simpl.
      rewrite omap_app. simpl. by rewrite app_nil_r.
    - intros [= <-]. by left.
    - intros [= <-]. by left.
    - intros [= <-]. by left. }
  destruct Hcases as [[-> ->] | [Hfalsy | (text & Htext & ->)]]; [done | by left |].
  right. exists text. split; [done|]. by rewrite last_snoc.
Qed.

End Reachable.

(** The three ways a tick can go: back at the guard, through without a
    context, or through with a frame sent. *)
Lemma captureAndAnalyze_cases (cb : Callback) (dom : Dom) (a : App) :
  captureAndAnalyze cb dom a = a
  ∨ (captureAndAnalyze cb dom a
     = with_ui (setIsLoading false (setError None (setIsLoading true (ui a)))) a)
  ∨ ∃ video canvas,
      videoRef dom = Some video ∧ canvasRef dom = Some canvas
      ∧ cb_isLoading cb = false ∧ context2d canvas = true
      ∧ ui (captureAndAnalyze cb dom a) = setError None (setIsLoading true (ui a))
      ∧ inflight (captureAndAnalyze cb dom a)
        = (inflight a ++ [(String_split "," (dataURL canvas) !! 1%nat, cb)])%list
      ∧ calls (captureAndAnalyze cb dom a)
        = (calls a ++ [drawImage (videoWidth video) (videoHeight video);
                       toDataURL "image/jpeg" 7;
                       call_generateContent
                         (request (String_split "," (dataURL canvas) !! 1%nat))])%list.
Proof.
  unfold captureAndAnalyze.
  destruct (cb_isLoading cb) eqn:Hl, (videoRef dom) as [video|],
    (canvasRef dom) as [canvas|]; try by left.
  destruct (context2d canvas) eqn:Hc.
  - right. right. exists video, canvas. repeat (split; [done|]).
    simpl. by rewrite <- app_assoc.
  - right. by left.
Qed.

Section Invariants.
Context `{Builtins}.

Lemma step_snapshots_are_sent (a a' : App) (ev : Event) :
  snapshots_are_sent a → step a ev = Some a' → snapshots_are_sent a'.
Proof.
  unfold snapshots_are_sent. intros (Hd & He & Hi).
  assert (∀ before a1,
            inflight (commit before a1) = inflight a1
            ∧ count_calls is_drawImage (commit before a1) = count_calls is_drawImage a1
            ∧ count_calls is_toDataURL (commit before a1) = count_calls is_toDataURL a1
            ∧ count_calls is_generateContent (commit before a1)
              = count_calls is_generateContent a1) as Hcommit.
  { intros before a1. destruct (commit_frame before a1) as [_ ->].
    by rewrite !commit_count. }
  destruct ev; cbn [step].
  - destruct (isAnalyzing (ui a)); [discriminate|]. intros [= <-].
    destruct (Hcommit false (with_ui (handleStart (ui a)) a)) as (-> & -> & -> & ->).
    done.
  - destruct (isAnalyzing (ui a)); [|discriminate]. intros [= <-].
    destruct (Hcommit true (with_ui (handleStop (ui a)) a)) as (-> & -> & -> & ->).
    done.
  - destruct (timers a !! id) as [iv|]; [|discriminate]. intros [= <-].
    destruct (Hcommit (isAnalyzing (ui a)) (captureAndAnalyze (handler iv) dom a))
      as (-> & -> & -> & ->).
    destruct (captureAndAnalyze_cases (handler iv) dom a)
      as [-> | [-> | (video & canvas & _ & _ & _ & _ & _ & Hin & Hcalls)]]; try done.
    unfold count_calls. rewrite Hin, Hcalls, !List.filter_app, !length_app.
    unfold count_calls in *. simpl. lia.
  - destruct (inflight a !! i) as [[img cb]|] eqn:Hlook; [|discriminate].
    destruct (captureAndAnalyze_resume _ _ _ _) as [a1|] eqn:Hres; [|discriminate].
    intros [= <-].
    destruct (Hcommit (isAnalyzing (ui a)) a1) as (-> & -> & -> & ->).
    apply resume_effect in Hres
      as (_ & _ & _ & _ & _ & _ & _ & _ & Hin & _ & _ & Hcount).
    cbn [inflight with_inflight] in Hin.
    rewrite Hin, !Hcount by done.
    change (count_calls is_drawImage (with_inflight (delete i (inflight a)) a))
      with (count_calls is_drawImage a).
    change (count_calls is_toDataURL (with_inflight (delete i (inflight a)) a))
      with (count_calls is_toDataURL a).
    change (count_calls is_generateContent (with_inflight (delete i (inflight a)) a))
      with (count_calls is_generateContent a).
    repeat (split; [done|]).
    rewrite length_delete by eauto. lia.
  - destruct (cameraRequests a); [discriminate|]. by intros [= <-].
  - destruct (cameraRequests a); [discriminate|]. intros [= <-].
    unfold count_calls, startWebcam_denied. simpl.
    rewrite !List.filter_app. simpl. by rewrite !app_nil_r.
  - by intros [= <-].
  - by intros [= <-].
  - by intros [= <-].
Qed.

Lemma step_loading_awaits (a a' : App) (ev : Event) :
  (isLoading (ui a) = true → inflight a ≠ []) →
  step a ev = Some a' →
  isLoading (ui a') = true → inflight a' ≠ [].
Proof.
  intros Hinv. destruct ev; cbn [step].
  - destruct (isAnalyzing (ui a)); [discriminate|]. intros [= <-].
    destruct (commit_frame false (with_ui (handleStart (ui a)) a)) as [_ ->].
    by destruct (commit_effect false (with_ui (handleStart (ui a)) a)) as (_ & -> & _).
  - destruct (isAnalyzing (ui a)); [|discriminate]. intros [= <-].
    destruct (commit_frame true (with_ui (handleStop (ui a)) a)) as [_ ->].
    by destruct (commit_effect true (with_ui (handleStop (ui a)) a)) as (_ & -> & _).
  - destruct (timers a !! id) as [iv|]; [|discriminate]. intros [= <-].
    destruct (commit_frame (isAnalyzing (ui a)) (captureAndAnalyze (handler iv) dom a))
      as [_ ->].
    destruct (commit_effect (isAnalyzing (ui a)) (captureAndAnalyze (handler iv) dom a))
      as (_ & -> & _).
    destruct (captureAndAnalyze_cases (handler iv) dom a)
      as [-> | [-> | (video & canvas & _ & _ & _ & _ & _ & -> & _)]]; try done.
    intros _ E. by apply app_eq_nil in E as [_ ?].
  - destruct (inflight a !! i) as [[img cb]|]; [|discriminate].
    destruct (captureAndAnalyze_resume _ _ _ _) as [a1|] eqn:Hres; [|discriminate].
    intros [= <-].
    destruct (commit_effect (isAnalyzing (ui a)) a1) as (_ & -> & _).
    apply resume_effect in Hres as (_ & _ & _ & _ & _ & _ & _ & _ & _ & -> & _).
    done.
  - destruct (cameraRequests a); [discriminate|]. by intros [= <-].
  - destruct (cameraRequests a); [discriminate|]. by intros [= <-].
  - by intros [= <-].
  - by intros [= <-].
  - by intros [= <-].
Qed.

End Invariants.

Lemma theme_without_result (u : UiState) :
  analysisResult u = None →
  ∃ t, theme u = Ok t
       ∧ th_title t = "Calm & Collected"
       ∧ visualEffectClass t = Some "border-transparent"
       ∧ filterEffectClass t = EmptyString.
Proof.
  intros Hnone. unfold theme, currentEmotion. rewrite Hnone.
  assert (∃ cfg, emotionConfig !! Emotion_value NEUTRAL = Some cfg
                 ∧ title cfg = "Calm & Collected") as (cfg & -> & Ht)
    by (eexists; split; vm_compute; reflexivity).
  eexists. split; [reflexivity|]. split; [exact Ht|].
  rewrite andb_false_r. split; [|reflexivity]. vm_compute. reflexivity.
Qed.

Section Buttons.
Context `{Builtins}.

(** X1. At most one interval timer runs, and it runs exactly while
    analysis does: while [isAnalyzing] is true the window has one timer, the
    one [intervalRef] names, with a delay of 5000 ms; while it is false
    there is no timer and [intervalRef] is null. Starting, stopping and
    failing any number of times leaves no timer behind. *)
Theorem one_timer_while_analyzing (a : App) :
  reachable a →
  (size (timers a) <= 1)%nat
  ∧ (isAnalyzing (ui a) = true
     ↔ ∃ id cb, intervalRef a = Some id
                ∧ timers a = {[ id := {| delay := 5000; handler := cb |} ]})
  ∧ (isAnalyzing (ui a) = false ↔ intervalRef a = None ∧ timers a = ∅).
Proof.
  intros Hreach. pose proof (reachable_invariant _ Hreach) as Hinv.
  unfold timer_invariant, timers_match in Hinv.
  destruct (isAnalyzing (ui a)).
  - destruct Hinv as (id & cb & Href & Ht). split; [|split].
    + rewrite Ht, map_size_singleton. lia.
    + split; [eauto | done].
    + split; [done|]. intros [E _]. congruence.
  - destruct Hinv as [Href Ht]. split; [|split].
    + rewrite Ht, map_size_empty. lia.
    + split; [done|]. intros (id & cb & E & _). congruence.
    + done.
Qed.

(** X2. A click on Start, from any state in which analysis is off and no
    timer runs (as in every state the component reaches with analysis off):
    the result and the error of the previous run are cleared, while the
    last spoken message, the surprise key and the loading flag are kept;
    the stream [streamRef] still holds is stopped, the camera is asked for
    at 1280 by 720 if the browser has media devices, and otherwise the
    message that the browser does not support camera access is shown; in
    both cases one timer of 5000 ms is armed with the callback of that
    render, and the theme is the NEUTRAL one until a result arrives. *)
Theorem start_resets_and_arms (a : App) :
  isAnalyzing (ui a) = false →
  intervalRef a = None →
  timers a = ∅ →
  ∃ a',
    step a ClickStart = Some a'
    ∧ ui a' = {| isAnalyzing := true;
                 isLoading := isLoading (ui a);
                 error := if mediaDevices (browser a) then None
                          else Some "Your browser does not support camera access.";
                 analysisResult := None;
                 lastSpokenMessage := lastSpokenMessage (ui a);
                 surpriseKey := surpriseKey (ui a) |}
    ∧ intervalRef a' = Some (nextTimer a)
    ∧ timers a' = {[ nextTimer a := {| delay := 5000; handler := current_callback a |} ]}
    ∧ new_calls a a'
      = (match streamRef a with
         | Some stream => [stop_tracks stream]
         | None => []
         end
         ++ (if mediaDevices (browser a) then [getUserMedia 1280 720] else [])
         ++ [setInterval (nextTimer a) 5000])%list
    ∧ streamRef a' = None
    ∧ streams a' = match streamRef a with
                   | Some stream => streams a ∖ {[ stream ]}
                   | None => streams a
                   end
    ∧ cameraRequests a'
      = (if mediaDevices (browser a) then S (cameraRequests a) else cameraRequests a)
    ∧ inflight a' = inflight a
    ∧ ∃ t, theme (ui a') = Ok t
           ∧ th_title t = "Calm & Collected"
           ∧ visualEffectClass t = Some "border-transparent"
           ∧ filterEffectClass t = EmptyString.
Proof.
  intros Hoff Href Ht.
  cbn [step]. rewrite Hoff. eexists. split; [reflexivity|].
  assert (∀ u', analysisResult u' = None → ∃ t, theme u' = Ok t
            ∧ th_title t = "Calm & Collected"
            ∧ visualEffectClass t = Some "border-transparent"
            ∧ filterEffectClass t = EmptyString) as Htheme
    by apply theme_without_result.
  unfold new_calls, commit, effect_body, effect_cleanup, stopWebcam, startWebcam,
    window_setInterval, window_clearInterval, current_callback, handleStart.
  destruct a as [[sy md] [an lo er re la su] s r st live ns t n c f cs].
  simpl in *. subst an r t.
  destruct st, md; simpl; rewrite ?insert_empty, <- ?app_assoc, ?drop_app_length;
    repeat (split; [reflexivity|]); by apply Htheme.
Qed.

(** X3. A click on Stop, from any state in which analysis is on and the
    one timer runs (as in every state the component reaches with analysis
    on): only [isAnalyzing] changes in the component state, so the last
    result and error stay on display; the stream [streamRef] holds is
    stopped once, the timer is cleared (by the cleanup and again by the
    effect), and the calls still awaited are not cancelled. *)
Theorem stop_releases_camera_and_timer (a : App) (id : Z) (iv : Interval) :
  isAnalyzing (ui a) = true →
  intervalRef a = Some id →
  timers a = {[ id := iv ]} →
  ∃ a',
    step a ClickStop = Some a'
    ∧ ui a' = setIsAnalyzing false (ui a)
    ∧ intervalRef a' = None
    ∧ timers a' = ∅
    ∧ streamRef a' = None
    ∧ streams a' = match streamRef a with
                   | Some stream => streams a ∖ {[ stream ]}
                   | None => streams a
                   end
    ∧ new_calls a a'
      = (match streamRef a with
         | Some stream => [stop_tracks stream]
         | None => []
         end
         ++ [clearInterval id; clearInterval id])%list
    ∧ inflight a' = inflight a
    ∧ cameraRequests a' = cameraRequests a.
Proof.
  intros Hon Href Ht.
  cbn [step]. rewrite Hon. eexists. split; [reflexivity|].
  unfold new_calls, commit, effect_body, effect_cleanup, stopWebcam,
    window_clearInterval, handleStop.
  destruct a as [[sy md] [an lo er re la su] s r st live ns t n c f cs].
  simpl in *. subst an r t.
  destruct st; simpl;
    rewrite ?delete_singleton_eq, ?delete_empty, <- ?app_assoc, ?drop_app_length;
    repeat (split; [reflexivity|]); reflexivity.
Qed.

End Buttons.

Section Camera.
Context `{Builtins}.

(** X4. When the camera is refused, the refusal is written to the
    console and the message that the camera could not be accessed is
    shown, but analysis is not stopped: [isAnalyzing] and the timer stay as
    they are, and the next tick that passes the guard clears the message
    again. *)
Theorem camera_failure_keeps_running (a : App) (n : nat) (err : Error) :
  cameraRequests a = S n →
  ∃ a1,
    step a (CameraDenied err) = Some a1
    ∧ error (ui a1) = Some "Could not access camera. Please check permissions."
    ∧ isAnalyzing (ui a1) = isAnalyzing (ui a)
    ∧ timers a1 = timers a
    ∧ intervalRef a1 = intervalRef a
    ∧ streamRef a1 = streamRef a
    ∧ cameraRequests a1 = n
    ∧ new_calls a a1 = [call_console (console_error "Error accessing webcam:" err)]
    ∧ ∀ id iv dom video canvas,
        timers a1 !! id = Some iv →
        cb_isLoading (handler iv) = false →
        videoRef dom = Some video →
        canvasRef dom = Some canvas →
        ∃ a2, step a1 (Tick id dom) = Some a2 ∧ error (ui a2) = None.
Proof.
  intros Hreq. cbn [step]. rewrite Hreq. eexists. split; [reflexivity|].
  repeat (split; [reflexivity|]). split.
  { unfold new_calls, startWebcam_denied. simpl. by rewrite drop_app_length. }
  intros id iv dom video canvas Hiv Hload Hvideo Hcanvas.
  cbn [step]. cbn [timers startWebcam_denied with_ui called with_cameraRequests] in Hiv |- *.
  rewrite Hiv.
  eexists. split; [reflexivity|].
  rewrite commit_same
    by (by match goal with
           | |- context [captureAndAnalyze ?cb ?d ?x] =>
               destruct (captureAndAnalyze_effect cb d x) as (_ & _ & -> & _)
           end).
  unfold captureAndAnalyze. rewrite Hload, Hvideo, Hcanvas.
  by destruct (context2d canvas).
Qed.

(** What the effect does to the streams: nothing, or it stops the one
    [streamRef] holds. *)
Lemma commit_streams (before : bool) (a : App) :
  nextStream (commit before a) = nextStream a
  ∧ cameraRequests (commit before a)
    = (if negb (Bool.eqb before (isAnalyzing (ui a)))
          && isAnalyzing (ui a) && mediaDevices (browser a)
       then S (cameraRequests a) else cameraRequests a)
  ∧ ((streamRef (commit before a) = streamRef a ∧ streams (commit before a) = streams a
      ∧ count_calls is_stop_tracks (commit before a) = count_calls is_stop_tracks a)
     ∨ ∃ stream, before ≠ isAnalyzing (ui a)
                 ∧ streamRef a = Some stream
                 ∧ streamRef (commit before a) = None
                 ∧ streams (commit before a) = streams a ∖ {[ stream ]}).
Proof.
  unfold count_calls.
  effect_cases a before; rewrite ?List.filter_app; simpl; rewrite ?app_nil_r;
    (split; [done|]); (split; [done|]);
    first [ by left | right; eexists; by repeat split ].
Qed.

Lemma stopped_keeps_stream (a a' : App) (ev : Event) :
  isAnalyzing (ui a) = false →
  intervalRef a = None → timers a = ∅ →
  ev ≠ ClickStart →
  step a ev = Some a' →
  isAnalyzing (ui a') = false ∧ intervalRef a' = None ∧ timers a' = ∅
  ∧ streams a ⊆ streams a'
  ∧ count_calls is_stop_tracks a' = count_calls is_stop_tracks a
  ∧ (ev ≠ CameraGranted → streamRef a' = streamRef a).
Proof.
  intros Hoff Href Ht Hev.
  destruct ev; cbn [step]; try done.
  - by rewrite Hoff.
  - by rewrite Ht, lookup_empty.
  - destruct (inflight a !! i) as [[img cb]|]; [|discriminate].
    rewrite Hoff.
    destruct (captureAndAnalyze_resume _ _ _ _) as [a1|] eqn:Hres; [|discriminate].
    intros [= <-].
    apply resume_effect in Hres
      as (_ & _ & Hi & Htm & Hsr & Hst & _ & _ & _ & _ & Hrun & Hcount).
    assert (isAnalyzing (ui a1) = false) as Hoff1 by (by destruct Hrun as [->| ->]).
    rewrite commit_same by done.
    rewrite Hoff1, Hi, Htm, Hsr, Hst, Hcount by done. done.
  - destruct (cameraRequests a); [discriminate|]. intros [= <-].
    unfold startWebcam_granted. simpl. repeat (split; [done|]).
    split; [apply union_subseteq_r|]. done.
  - destruct (cameraRequests a); [discriminate|]. intros [= <-].
    unfold startWebcam_denied, count_calls. simpl.
    rewrite List.filter_app. simpl. by rewrite app_nil_r.
  - by intros [= <-].
  - by intros [= <-].
  - by intros [= <-].
Qed.

(** A stream that [streamRef] no longer holds is never stopped: the
    numbers of the streams granted later are larger. *)
Lemma replaced_stream_stays (stream : nat) (a a' : App) (ev : Event) :
  stream ∈ streams a →
  (stream < nextStream a)%nat →
  (∀ held, streamRef a = Some held → (stream < held)%nat) →
  step a ev = Some a' →
  stream ∈ streams a'
  ∧ (stream < nextStream a')%nat
  ∧ ∀ held, streamRef a' = Some held → (stream < held)%nat.
Proof.
  intros Hin Hnext Hheld.
  assert (∀ before a1,
            stream ∈ streams a1 → (stream < nextStream a1)%nat →
            (∀ held, streamRef a1 = Some held → (stream < held)%nat) →
            stream ∈ streams (commit before a1)
            ∧ (stream < nextStream (commit before a1))%nat
            ∧ ∀ held, streamRef (commit before a1) = Some held → (stream < held)%nat)
    as Hcommit.
  { intros before a1 H1 H2 H3.
    destruct (commit_streams before a1)
      as (-> & _ & [(-> & -> & _) | (held & _ & Hh & -> & ->)]); [done|].
    split; [|done]. specialize (H3 held Hh).
    apply elem_of_difference. split; [done|]. rewrite elem_of_singleton. lia. }
  destruct ev; cbn [step].
  - destruct (isAnalyzing (ui a)); [discriminate|]. intros [= <-]. by apply Hcommit.
  - destruct (isAnalyzing (ui a)); [|discriminate]. intros [= <-]. by apply Hcommit.
  - destruct (timers a !! id) as [iv|]; [|discriminate]. intros [= <-].
    apply Hcommit; unfold captureAndAnalyze;
      destruct (cb_isLoading (handler iv)), (videoRef dom), (canvasRef dom) as [canvas|];
      try done; by destruct (context2d canvas).
  - destruct (inflight a !! i) as [[img cb]|]; [|discriminate].
    destruct (captureAndAnalyze_resume _ _ _ _) as [a1|] eqn:Hres; [|discriminate].
    intros [= <-].
    apply resume_effect in Hres as (_ & _ & _ & _ & Hsr & Hst & Hns & _).
    apply Hcommit; by rewrite ?Hsr, ?Hst, ?Hns.
  - destruct (cameraRequests a); [discriminate|]. intros [= <-].
    unfold startWebcam_granted. simpl. split; [by apply elem_of_union_r|].
    split; [lia|]. intros held [= <-]. done.
  - destruct (cameraRequests a); [discriminate|]. by intros [= <-].
  - by intros [= <-].
  - by intros [= <-].
  - by intros [= <-].
Qed.

(** X5. From any state in which analysis is off and no timer runs (as in
    every state the component reaches with analysis off): a camera stream
    that is granted then is attached all the same, and nothing stops it
    while analysis stays off:
    whatever happens without a click on Start, its tracks are not stopped,
    and [streamRef] holds it until the camera is granted once more. The
    next click on Start stops the stream [streamRef] holds, in the cleanup
    of the effect. A stream that a later grant replaced in [streamRef] is
    never stopped. *)
Theorem late_camera_grant_is_held (a : App) (n : nat) :
  isAnalyzing (ui a) = false →
  intervalRef a = None →
  timers a = ∅ →
  cameraRequests a = S n →
  ∃ a1,
    step a CameraGranted = Some a1
    ∧ streamRef a1 = Some (nextStream a)
    ∧ nextStream a ∈ streams a1
    ∧ isAnalyzing (ui a1) = false
    ∧ new_calls a a1 = []
    ∧ (∀ evs a2, ¬ In ClickStart evs → run a1 evs = Some a2 →
         nextStream a ∈ streams a2
         ∧ isAnalyzing (ui a2) = false
         ∧ count_calls is_stop_tracks a2 = count_calls is_stop_tracks a
         ∧ (¬ In CameraGranted evs → streamRef a2 = Some (nextStream a)))
    ∧ (∃ a3, step a1 ClickStart = Some a3
             ∧ streamRef a3 = None
             ∧ (nextStream a ∉ streams a3)
             ∧ head (new_calls a1 a3) = Some (stop_tracks (nextStream a)))
    ∧ ∀ a2 evs a3,
        step a1 CameraGranted = Some a2 →
        run a2 evs = Some a3 →
        streamRef a2 = Some (S (nextStream a))
        ∧ nextStream a ∈ streams a3
        ∧ streamRef a3 ≠ Some (nextStream a).
Proof.
  intros Hoff Href Ht Hreq.
  cbn [step]. rewrite Hreq. eexists. split; [reflexivity|].
  split; [reflexivity|].
  split; [by apply elem_of_union_l, elem_of_singleton|].
  split; [exact Hoff|]. split.
  { unfold new_calls. simpl. apply drop_all. }
  split; [|split].
  - intros evs.
    assert (∀ a0, isAnalyzing (ui a0) = false → intervalRef a0 = None →
                  timers a0 = ∅ → nextStream a ∈ streams a0 →
                  ∀ a2, ¬ In ClickStart evs → run a0 evs = Some a2 →
                  nextStream a ∈ streams a2 ∧ isAnalyzing (ui a2) = false
                  ∧ count_calls is_stop_tracks a2 = count_calls is_stop_tracks a0
                  ∧ (¬ In CameraGranted evs → streamRef a2 = streamRef a0))
      as Hgen.
    { induction evs as [|ev evs IH]; intros a0 H1 H2 H3 H4 a2 Hno; cbn [run].
      - by intros [= <-].
      - destruct (step a0 ev) as [a0'|] eqn:Hstep; [|discriminate]. intros Hrun.
        assert (ev ≠ ClickStart) as Hev by (intros ->; apply Hno; by left).
        destruct (stopped_keeps_stream _ _ _ H1 H2 H3 Hev Hstep)
          as (H1' & H2' & H3' & Hsub & Hc & Hsame).
        destruct (IH a0' H1' H2' H3' (Hsub _ H4) a2) as (? & ? & ? & Hkeep); [|done|].
        { intros Hin. apply Hno. by right. }
        repeat (split; [done|]). split; [congruence|].
        intros Hng. rewrite Hkeep by (intros Hin; apply Hng; by right).
        apply Hsame. intros ->. apply Hng. by left. }
    intros a2 Hno Hrun.
    apply (Hgen (startWebcam_granted (with_cameraRequests n a))); try done.
    by apply elem_of_union_l, elem_of_singleton.
  - cbn [step]. cbn [ui startWebcam_granted with_streamRef with_streams with_cameraRequests].
    rewrite Hoff.
    eexists. split; [reflexivity|].
    unfold new_calls, commit, effect_body, effect_cleanup, stopWebcam, startWebcam,
      window_setInterval, window_clearInterval, handleStart.
    destruct a as [[sy md] [an lo er re la su] s r st live ns t n' c f cs].
    simpl in *. subst an r t.
    destruct md; simpl; rewrite <- ?app_assoc, ?drop_app_length;
      (split; [done|]);
      (split; [intros [_ Hx]%elem_of_difference; apply Hx; by apply elem_of_singleton|]);
      done.
  - intros a2 evs a3. cbn [step].
    cbn [cameraRequests startWebcam_granted with_streamRef with_streams with_cameraRequests].
    destruct n as [|n']; [discriminate|]. intros [= <-] Hrun.
    split; [reflexivity|].
    assert (∀ evs' a0,
              nextStream a ∈ streams a0 → (nextStream a < nextStream a0)%nat →
              (∀ held, streamRef a0 = Some held → (nextStream a < held)%nat) →
              run a0 evs' = Some a3 →
              nextStream a ∈ streams a3 ∧ streamRef a3 ≠ Some (nextStream a))
      as Hgen.
    { clear Hrun. induction evs' as [|ev evs' IH]; intros a0 H1 H2 H3; cbn [run].
      - intros [= <-]. split; [done|]. intros Hs. specialize (H3 _ Hs). lia.
      - destruct (step a0 ev) as [a0'|] eqn:Hstep; [|discriminate].
        destruct (replaced_stream_stays _ _ _ _ H1 H2 H3 Hstep) as (? & ? & ?).
        by apply IH. }
    eapply (Hgen evs); [| | |exact Hrun]; simpl.
    + apply elem_of_union_r, elem_of_union_l. by apply elem_of_singleton.
    + lia.
    + intros held [= <-]. lia.
Qed.

(** X6. When an awaited analysis succeeds, whether analysis is still on or
    has been stopped meanwhile, and whatever the response held in its three
    texts: the result is stored, the loading flag is lowered, the surprise
    key becomes the current time exactly when the emotion is SURPRISED, and
    the call is no longer awaited. The message is compared with the last
    spoken message the awaiting callback holds: if equal, nothing is spoken
    and the state keeps its last spoken message; if different, the state
    takes it as last spoken message, and it is handed to the synthesizer
    unless [speak] returns at its guard. In both cases the error,
    [isAnalyzing] and the timer are left as they are. Only where the
    message cannot be converted to a string does the [catch] run: nothing is
    spoken, the last spoken message stays, the error of the conversion is
    shown and analysis stops. *)
Theorem success_stores_and_announces (a : App) (i : nat) (img : option string)
    (cb : Callback) (remote : Throws GenerateContentResponse) (now : Z)
    (v : Value) :
  inflight a !! i = Some (img, cb) →
  outcome (analyzeImage {| generateContent := fun _ => remote |} img) = Ok v →
  ∃ a' r,
    asAnalysisResult v = Some r
    ∧ step a (Settled i remote now) = Some a'
    ∧ analysisResult (ui a') = Some r
    ∧ isLoading (ui a') = false
    ∧ inflight a' = delete i (inflight a)
    ∧ surpriseKey (ui a')
      = match emotion r with SURPRISED => now | _ => surpriseKey (ui a) end
    ∧ if strict_equal (encouragingMessage r) (cb_lastSpokenMessage cb)
      then spoken a' = spoken a
           ∧ lastSpokenMessage (ui a') = lastSpokenMessage (ui a)
           ∧ error (ui a') = error (ui a)
           ∧ isAnalyzing (ui a') = isAnalyzing (ui a)
           ∧ timers a' = timers a
      else if truthy (encouragingMessage r) && speechSynthesis (browser a)
      then match toString (encouragingMessage r) with
           | Ok text =>
               spoken a' = (spoken a ++ [text])%list
               ∧ lastSpokenMessage (ui a') = encouragingMessage r
               ∧ error (ui a') = error (ui a)
               ∧ isAnalyzing (ui a') = isAnalyzing (ui a)
               ∧ timers a' = timers a
           | Throw err =>
               spoken a' = spoken a
               ∧ lastSpokenMessage (ui a') = lastSpokenMessage (ui a)
               ∧ error (ui a') = Some (message err)
               ∧ isAnalyzing (ui a') = false
               ∧ (timer_invariant a → intervalRef a' = None ∧ timers a' = ∅)
           end
      else spoken a' = spoken a
           ∧ lastSpokenMessage (ui a') = encouragingMessage r
           ∧ error (ui a') = error (ui a)
           ∧ isAnalyzing (ui a') = isAnalyzing (ui a)
           ∧ timers a' = timers a.
Proof.
  intros Hi Hv.
  destruct (analyzeImage_result_is_held _ _ _ Hv) as (r & Hr & _).
  destruct (resume_success cb _ v r now (with_inflight (delete i (inflight a)) a) Hv Hr)
    as (a1 & Hres & Hresult & Hload & Hin & Ht & Hkey & Hsay).
  assert (step a (Settled i remote now) = Some (commit (isAnalyzing (ui a)) a1)) as Hstep.
  { cbn [step]. rewrite Hi, Hres. reflexivity. }
  exists (commit (isAnalyzing (ui a)) a1), r. split; [done|]. split; [done|].
  destruct (commit_effect (isAnalyzing (ui a)) a1) as (_ & -> & -> & -> & ->).
  destruct (commit_frame (isAnalyzing (ui a)) a1) as [_ ->].
  rewrite spoken_commit.
  repeat (split; [done|]).
  cbn [ui with_inflight browser] in Hsay.
  change (spoken (with_inflight (delete i (inflight a)) a)) with (spoken a) in Hsay.
  assert (∀ e, isAnalyzing (ui a1) = isAnalyzing (ui a) → error (ui a1) = e →
               error (ui (commit (isAnalyzing (ui a)) a1)) = e
               ∧ isAnalyzing (ui (commit (isAnalyzing (ui a)) a1)) = isAnalyzing (ui a)
               ∧ timers (commit (isAnalyzing (ui a)) a1) = timers a) as Hsame.
  { intros e Hrun He. rewrite commit_same by exact Hrun. by rewrite Hrun, Ht. }
  destruct (strict_equal _ _).
  { destruct Hsay as (-> & -> & He & Hrun). repeat (split; [done|]). by apply Hsame. }
  destruct (truthy (encouragingMessage r) && speechSynthesis (browser a)).
  - destruct (toString (encouragingMessage r)) as [text|err].
    + destruct Hsay as (-> & -> & He & Hrun). repeat (split; [done|]). by apply Hsame.
    + destruct Hsay as (-> & -> & He & Hrun). repeat (split; [done|]).
      rewrite commit_stopped_ui by exact Hrun.
      split; [exact He|]. split; [exact Hrun|].
      intros Hinv. pose proof (step_invariant _ _ _ Hinv Hstep) as Hinv'.
      unfold timer_invariant in Hinv'.
      by rewrite commit_isAnalyzing, Hrun in Hinv'.
  - destruct Hsay as (-> & -> & He & Hrun). repeat (split; [done|]). by apply Hsame.
Qed.

(** X7. In every state the component can reach, the value held as last
    spoken message is either one [speak] does not hand over (the empty
    string the state starts with, or a message that is [undefined], [null],
    [false] or zero), or the one whose text was handed to the synthesizer
    last. *)
Theorem lastSpokenMessage_is_last_spoken (a : App) :
  reachable a →
  truthy (lastSpokenMessage (ui a)) = false
  ∨ ∃ text, toString (lastSpokenMessage (ui a)) = Ok text
            ∧ last (spoken a) = Some text.
Proof.
  intros Hreach. change (last_spoken_agrees a). revert a Hreach.
  apply (reachable_induction last_spoken_agrees).
  - intros b _. by left.
  - intros a ev a' Hreach. apply step_last_spoken.
    by apply reachable_speechSynthesis.
Qed.

(** X8. In every state the component can reach, the loading flag is up
    only while a call of [analyzeImage] is awaited: the spinner is never
    left on with nothing pending. *)
Theorem loading_means_a_call_is_awaited (a : App) :
  reachable a → isLoading (ui a) = true → inflight a ≠ [].
Proof.
  revert a.
  apply (reachable_induction (fun a => isLoading (ui a) = true → inflight a ≠ [])).
  - intros b. simpl. discriminate.
  - intros a ev a' _. apply step_loading_awaits.
Qed.

(** X9. In every state the component can reach, the frames drawn, the
    frames encoded and the requests sent to the model are as many: no
    request goes out without a fresh snapshot and no snapshot is dropped;
    and the calls awaited are at most the requests sent. *)
Theorem every_snapshot_is_sent (a : App) :
  reachable a →
  count_calls is_drawImage a = count_calls is_toDataURL a
  ∧ count_calls is_toDataURL a = count_calls is_generateContent a
  ∧ (length (inflight a) <= count_calls is_generateContent a)%nat.
Proof.
  intros Hreach. change (snapshots_are_sent a). revert a Hreach.
  apply (reachable_induction snapshots_are_sent).
  - intros b. unfold snapshots_are_sent, count_calls. simpl. lia.
  - intros a ev a' _. apply step_snapshots_are_sent.
Qed.

End Camera.

(** ** The image sent and the console *)

Lemma no_comma_cons (c : ascii) (s : string) :
  String_includes "," (String c s) = false →
  Ascii.eqb c "," = false ∧ String_includes "," s = false.
Proof.
  cbn [String_includes String.prefix]. intros Hno.
  apply orb_false_elim in Hno as [Hp Hrest]. split; [|exact Hrest].
  destruct (ascii_dec "," c) as [<-|Hne].
  - by destruct s.
  - apply Ascii.eqb_neq. congruence.
Qed.

Lemma String_split_no_separator (s : string) :
  String_includes "," s = false → String_split "," s = [s].
Proof.
  induction s as [|c s IH]; [done|]. intros Hno.
  apply no_comma_cons in Hno as [Hc Hs]. cbn [String_split].
  by rewrite Hc, (IH Hs).
Qed.

Lemma String_split_at_separator (p q : string) :
  String_includes "," p = false →
  String_split "," (p ++ "," ++ q) = p :: String_split "," q.
Proof.
  induction p as [|c p IH]; intros Hno.
  - reflexivity.
  - apply no_comma_cons in Hno as [Hc Hp]. rewrite append_cons.
    cbn [String_split]. by rewrite Hc, (IH Hp).
Qed.

Section Sent.
Context `{Builtins}.

(** X10. A tick that passes the guard with a 2D context raises the loading
    flag, clears the error, and sends the model the part of the data URL
    after its comma, as the image/jpeg inline data of the request; a data
    URL without a comma makes the image undefined. *)
Theorem tick_sends_data_url_payload (a : App) (id : Z) (iv : Interval) (dom : Dom)
    (video : HTMLVideoElement) (canvas : HTMLCanvasElement) :
  timers a !! id = Some iv →
  cb_isLoading (handler iv) = false →
  videoRef dom = Some video →
  canvasRef dom = Some canvas →
  context2d canvas = true →
  ∃ a' image,
    step a (Tick id dom) = Some a'
    ∧ new_calls a a'
      = [drawImage (videoWidth video) (videoHeight video);
         toDataURL "image/jpeg" 7;
         call_generateContent (request image)]
    ∧ parts (request image) = [text_part instruction; inlineData "image/jpeg" image]
    ∧ inflight a' = (inflight a ++ [(image, handler iv)])%list
    ∧ isLoading (ui a') = true
    ∧ error (ui a') = None
    ∧ (∀ prefix payload,
         dataURL canvas = prefix ++ "," ++ payload →
         String_includes "," prefix = false →
         String_includes "," payload = false →
         image = Some payload)
    ∧ (String_includes "," (dataURL canvas) = false → image = None).
Proof.
  intros Hiv Hload Hvideo Hcanvas Hctx.
  cbn [step]. rewrite Hiv.
  rewrite commit_same
    by (by destruct (captureAndAnalyze_effect (handler iv) dom a) as (_ & _ & -> & _)).
  eexists _, (String_split "," (dataURL canvas) !! 1%nat).
  split; [reflexivity|].
  unfold captureAndAnalyze, new_calls. rewrite Hload, Hvideo, Hcanvas, Hctx.
  simpl. rewrite <- app_assoc, drop_app_length.
  repeat (split; [reflexivity|]). split.
  - intros prefix payload -> Hp Hq.
    by rewrite (String_split_at_separator _ _ Hp), (String_split_no_separator _ Hq).
  - intros Hno. by rewrite (String_split_no_separator _ Hno).
Qed.

(** X11. What [analyzeImage] writes to the console and gives, for a
    response that parses to [p] with [x] as its emotion: nothing is written
    and [p] is returned when [x] is one of the labels; otherwise the
    warning is built from [x], and where that conversion throws, the one
    line written is the error line with what the conversion threw; where it
    does not, the warning with [x] is written, and then either [p] with
    NEUTRAL for its emotion is returned, or, [p] taking no property, the
    error line follows with what the assignment threw. Whenever the call
    throws, the error line is the last one written. *)
Theorem analyzeImage_console (ai : GoogleGenAI) (img : option string)
    (response : GenerateContentResponse) (t : string) (p x : Value) :
  generateContent ai (request img) = Ok response →
  text response = Some t →
  JSON_parse (String_trim t) = Ok p →
  get p Key.emotion = Ok x →
  analyzeImage ai img
  = if includes emotionValues x then ([], Ok p)
    else match toString x with
         | Throw thrown =>
             ([console_error "Error analyzing image with Gemini API:" thrown],
              Throw (MkError analysis_failed))
         | Ok _ =>
             match set p Key.emotion (JStr "NEUTRAL") with
             | Ok v =>
                 ([console_warn "Received unknown emotion: " x ". Defaulting to NEUTRAL."],
                  Ok v)
             | Throw thrown =>
                 ([console_warn "Received unknown emotion: " x ". Defaulting to NEUTRAL.";
                   console_error "Error analyzing image with Gemini API:" thrown],
                  Throw (MkError analysis_failed))
             end
         end.
Proof.
  intros Hg Ht Hp Hx.
  unfold analyzeImage, analyzeImage_try, trimmed_text, validate_emotion.
  rewrite Hg. cbn [lift bind]. rewrite Ht. cbn [lift bind]. rewrite Hp.
  cbn [lift bind]. rewrite Hx. cbn [lift bind].
  destruct (includes emotionValues x); cbn [negb]; [reflexivity|].
  destruct (toString_throws x) eqn:Hthrows.
  - by rewrite (toString_throws_true _ Hthrows).
  - destruct (toString_throws_false _ Hthrows) as [s ->].
    change (Emotion_value NEUTRAL) with "NEUTRAL".
    by destruct (set p Key.emotion (JStr "NEUTRAL")).
Qed.

End Sent.

(** ** The further properties on concrete inputs *)

(** After Start, Stop and Start again, the one timer is the second one. *)
Lemma one_timer_while_analyzing_witness :
  ∃ id cb, intervalRef (Sample.after [ClickStart; ClickStop; ClickStart]) = Some id
           ∧ timers (Sample.after [ClickStart; ClickStop; ClickStart])
             = {[ id := {| delay := 5000; handler := cb |} ]}.
Proof.
  destruct (one_timer_while_analyzing (H := Reference.builtins)
              (Sample.after [ClickStart; ClickStop; ClickStart]))
    as (_ & Hon & _).
  - apply (reachable_run Sample.chrome [ClickStart; ClickStop; ClickStart]);
      [reflexivity | vm_compute; reflexivity].
  - apply Hon. vm_compute. reflexivity.
Defined.

(** The first Start after the mount asks for the camera and arms timer 1. *)
Lemma start_resets_and_arms_witness :
  ∃ a', step (H := Reference.builtins) (mounted Sample.chrome) ClickStart = Some a'
        ∧ new_calls (mounted Sample.chrome) a'
          = [getUserMedia 1280 720; setInterval 1 5000].
Proof.
  destruct (start_resets_and_arms (H := Reference.builtins) (mounted Sample.chrome))
    as (a' & Hstep & _ & _ & _ & Hcalls & _).
  - reflexivity.
  - reflexivity.
  - reflexivity.
  - exists a'. split; [exact Hstep | exact Hcalls].
Defined.

(** Stop while the camera streams: the track is stopped once, the timer
    cleared twice. *)
Lemma stop_releases_camera_and_timer_witness :
  ∃ a', step (H := Reference.builtins) Scenario.streaming ClickStop = Some a'
        ∧ new_calls Scenario.streaming a'
          = [stop_tracks 0; clearInterval 1; clearInterval 1]
        ∧ streamRef a' = None
        ∧ streams a' = ∅.
Proof.
  destruct (stop_releases_camera_and_timer (H := Reference.builtins) Scenario.streaming
              1 {| delay := 5000; handler := Sample.idle_callback |})
    as (a' & Hstep & _ & _ & _ & Hstream & Hlive & Hcalls & _).
  - vm_compute. reflexivity.
  - vm_compute. reflexivity.
  - vm_compute. reflexivity.
  - exists a'. split; [exact Hstep|]. split; [exact Hcalls|].
    split; [exact Hstream|]. rewrite Hlive. vm_compute. reflexivity.
Defined.

(** The camera is refused right after Start: analysis stays on, and the
    refusal is on the console. *)
Lemma camera_failure_keeps_running_witness :
  ∃ a1, step (H := Reference.builtins) (Sample.after [ClickStart])
          (CameraDenied Sample.not_allowed) = Some a1
        ∧ error (ui a1) = Some "Could not access camera. Please check permissions."
        ∧ isAnalyzing (ui a1) = true
        ∧ new_calls (Sample.after [ClickStart]) a1
          = [call_console (console_error "Error accessing webcam:" Sample.not_allowed)].
Proof.
  destruct (camera_failure_keeps_running (H := Reference.builtins)
              (Sample.after [ClickStart]) 0 Sample.not_allowed)
    as (a1 & Hstep & Herror & Hon & _ & _ & _ & _ & Hcalls & _).
  - vm_compute. reflexivity.
  - exists a1. split; [exact Hstep|]. split; [exact Herror|].
    split; [|exact Hcalls]. rewrite Hon. vm_compute. reflexivity.
Defined.

(** The camera answers after Stop: the stream is attached, and the first
    stream, stopped by the click, is not touched. *)
Lemma late_camera_grant_is_held_witness :
  ∃ a1, step (H := Reference.builtins) Scenario.camera_pending CameraGranted = Some a1
        ∧ streamRef a1 = Some 1%nat
        ∧ isAnalyzing (ui a1) = false.
Proof.
  destruct (late_camera_grant_is_held (H := Reference.builtins) Scenario.camera_pending 0)
    as (a1 & Hstep & Hstream & _ & Hoff & _).
  - vm_compute. reflexivity.
  - vm_compute. reflexivity.
  - vm_compute. reflexivity.
  - vm_compute. reflexivity.
  - exists a1. split; [exact Hstep|]. split; [|exact Hoff].
    rewrite Hstream. vm_compute. reflexivity.
Defined.

(** A surprised result: stored, spoken, and the surprise key is the time. *)
Lemma success_stores_and_announces_witness :
  ∃ a', step (H := Reference.builtins) Scenario.awaiting
          (Settled 0 (Sample.full "SURPRISED" "What a day!") 1000) = Some a'
        ∧ analysisResult (ui a') = Some Scenario.surprised
        ∧ surpriseKey (ui a') = 1000
        ∧ spoken a' = ["What a day!"].
Proof.
  destruct (success_stores_and_announces (H := Reference.builtins)
              Scenario.awaiting 0 (Some "AAAA") Sample.idle_callback
              (Sample.full "SURPRISED" "What a day!") 1000
              (Sample.returned (Sample.analyze (Sample.full "SURPRISED" "What a day!"))))
    as (a' & r & Hr & Hstep & Hresult & _ & _ & Hkey & Hsay).
  - vm_compute. reflexivity.
  - vm_compute. reflexivity.
  - vm_compute in Hr. injection Hr as <-.
    exists a'. split; [exact Hstep|]. split; [exact Hresult|].
    split; [exact Hkey|]. vm_compute in Hsay. destruct Hsay as [Hsay _]. exact Hsay.
Defined.

(** A response whose message is a number is spoken as the number prints;
    one whose message is missing is taken as last spoken message, and
    nothing is spoken for it. *)
Lemma lastSpokenMessage_is_last_spoken_witness :
  (∃ text, toString (lastSpokenMessage (ui Scenario.number_spoken)) = Ok text
           ∧ last (spoken Scenario.number_spoken) = Some text)
  ∧ lastSpokenMessage (ui Scenario.nothing_spoken) = JUndefined
  ∧ spoken Scenario.nothing_spoken = [].
Proof.
  split; [|split; vm_compute; reflexivity].
  destruct (lastSpokenMessage_is_last_spoken (H := Reference.builtins)
              Scenario.number_spoken) as [Hfalsy | Hlast].
  - apply (reachable_run Sample.chrome
             [ClickStart; Tick 1 Sample.frame; Settled 0 Sample.number_message 1000]);
      [reflexivity | vm_compute; reflexivity].
  - vm_compute in Hfalsy. discriminate Hfalsy.
  - exact Hlast.
Defined.

Lemma loading_means_a_call_is_awaited_witness :
  inflight Scenario.awaiting ≠ [].
Proof.
  apply (loading_means_a_call_is_awaited (H := Reference.builtins)).
  - apply (reachable_run Sample.chrome [ClickStart; Tick 1 Sample.frame]);
      [reflexivity | vm_compute; reflexivity].
  - vm_compute. reflexivity.
Defined.

Lemma every_snapshot_is_sent_witness :
  snapshots_are_sent Scenario.second_tick.
Proof.
  apply (every_snapshot_is_sent (H := Reference.builtins)).
  apply (reachable_run Sample.chrome
           [ClickStart; Tick 1 Sample.frame;
            Settled 0 (Sample.full "HAPPY" "Keep going!") 1000; Tick 1 Sample.frame]);
    [reflexivity | vm_compute; reflexivity].
Defined.

(** A response whose emotion is JOYFUL: the warning carries that string,
    and no error line follows. *)
Lemma analyzeImage_console_witness :
  console (Sample.analyze (Sample.full "JOYFUL" "Keep going!"))
  = [console_warn "Received unknown emotion: " (JStr "JOYFUL") ". Defaulting to NEUTRAL."].
Proof.
  unfold Sample.analyze.
  rewrite (analyzeImage_console (H := Reference.builtins)
             (Sample.client (Sample.full "JOYFUL" "Keep going!")) (Some "AAAA")
             {| text := Some (Sample.full_text "JOYFUL" "Keep going!") |}
             (Sample.full_text "JOYFUL" "Keep going!")
             (Sample.parsed (Sample.full_text "JOYFUL" "Keep going!"))
             (JStr "JOYFUL"));
    vm_compute; reflexivity.
Defined.

(** The frame of the samples: the payload after the comma is what is sent. *)
Lemma tick_sends_data_url_payload_witness :
  ∃ a', step (H := Reference.builtins) (Sample.after [ClickStart])
          (Tick 1 Sample.frame) = Some a'
        ∧ inflight a' = [(Some "AAAA", Sample.idle_callback)].
Proof.
  destruct (tick_sends_data_url_payload (H := Reference.builtins)
              (Sample.after [ClickStart]) 1
              {| delay := 5000; handler := Sample.idle_callback |} Sample.frame
              {| videoWidth := 1280; videoHeight := 720 |}
              {| context2d := true; dataURL := "data:image/jpeg;base64,AAAA" |})
    as (a' & image & Hstep & _ & _ & Hin & _ & _ & Hpayload & _);
    try (vm_compute; reflexivity).
  exists a'. split; [exact Hstep|]. rewrite Hin.
  rewrite (Hpayload "data:image/jpeg;base64" "AAAA");
    [reflexivity | reflexivity | vm_compute; reflexivity | vm_compute; reflexivity].
Defined.
